(** * ctfd-download: a shallow embedding of [download.py]

    The program mirrors a CTFd instance into a local directory: it lists the
    challenges, fetches each challenge's detail record, writes one Markdown
    stub per challenge, downloads the attached files and writes an index
    file ([README.md]).

    Python values are embedded as follows.
    - [str] is a list of Unicode code points ([pystr]).
    - The JSON documents of the CTFd API are embedded at the shapes the API
      documents: a challenge object is a record of optional members, each
      of the type the API gives it (an integer id, strings, a list of
      URLs); members of other types are outside the model.
    - A response is what the program reads of it: its parsed body
      (malformed, an object, or another JSON value), its content-length
      (absent or a number; a header that is not a number is outside the
      model) and the pieces in which [iter_content] hands out its bytes.
    - Exceptions are a sum type, and every function that can raise returns
      in the monad [M], which also collects the effects of the run (files
      written, console and log lines, progress-bar updates) in order.
    - The file system is a finite map from path to contents; the program
      only ever opens files for writing, so a run acts on it by replaying
      the writes it made.  Opening a file for writing and a GET are taken
      to succeed: errors of the disk and of the network are outside the
      model. *)

From Stdlib Require Import ZArith NArith List String Ascii Lia.
From Stdlib Require Import Numbers.DecimalString.
From Stdlib Require Import Init.Byte.
From stdpp Require Import base option list gmap.
From Equations Require Import Equations.
Import ListNotations.

Local Open Scope N_scope.

(* ===================================================================== *)
(** ** Strings *)

(** A Python [str]: a sequence of Unicode code points. *)
Abbreviation pystr := (list N).

(** Decoding of the UTF-8 bytes of a string literal of this file into code
    points, so that literals read as they do in the source. *)
Definition cont (b : ascii) : N := N.land (N_of_ascii b) 63.

Fixpoint utf8_decode (bs : list ascii) : pystr :=
  match bs with
  | [] => []
  | b :: rest =>
      let n := N_of_ascii b in
      if n <? 128 then n :: utf8_decode rest
      else if n <? 224 then
        match rest with
        | b1 :: rest1 =>
            (N.land n 31 * 64 + cont b1) :: utf8_decode rest1
        | _ => []
        end
      else if n <? 240 then
        match rest with
        | b1 :: b2 :: rest2 =>
            (N.land n 15 * 4096 + cont b1 * 64 + cont b2) :: utf8_decode rest2
        | _ => []
        end
      else
        match rest with
        | b1 :: b2 :: b3 :: rest3 =>
            (N.land n 7 * 262144 + cont b1 * 4096 + cont b2 * 64 + cont b3)
              :: utf8_decode rest3
        | _ => []
        end
  end.

Definition py (s : string) : pystr := utf8_decode (list_ascii_of_string s).
Arguments py s%_string : simpl never.

(** [str(n)] for a Python [int]. *)
Definition str_of_int (z : Z) : pystr :=
  py (NilZero.string_of_int (Z.to_int z)).

Definition newline : pystr := [10].

(** [a.startswith(b)] *)
Fixpoint startswith (a b : pystr) : bool :=
  match b, a with
  | [], _ => true
  | y :: b', x :: a' => (x =? y) && startswith a' b'
  | _ :: _, [] => false
  end.

(** [a.endswith(b)] *)
Definition endswith (a b : pystr) : bool := startswith (rev a) (rev b).

(** [os.path.join(a, b)] of [posixpath]: an absolute [b] replaces [a];
    otherwise the two are joined by one separator unless [a] is empty or
    already ends with one. *)
Definition path_join (a b : pystr) : pystr :=
  if startswith b (py "/") then b
  else if (match a with [] => true | _ => false end) || endswith a (py "/")
       then a ++ b
       else a ++ py "/" ++ b.

(* ===================================================================== *)
(** ** Character classes of the two regular expressions *)

(** [\s] of [re] on a [str] pattern: the Unicode whitespace code points. *)
Definition is_space (c : N) : bool :=
  ((9 <=? c) && (c <=? 13)) || ((28 <=? c) && (c <=? 32))
  || (c =? 133) || (c =? 160) || (c =? 5760)
  || ((8192 <=? c) && (c <=? 8202))
  || (c =? 8232) || (c =? 8233) || (c =? 8239) || (c =? 8287)
  || (c =? 12288).

(** The class [[a-z0-9-]]. *)
Definition is_slug_char (c : N) : bool :=
  ((97 <=? c) && (c <=? 122)) || ((48 <=? c) && (c <=? 57)) || (c =? 45).

Definition dash : N := 45.
Definition is_dash (c : N) : bool := c =? dash.

Definition is_ascii_cp (c : N) : bool := c <? 128.

Definition ascii_lower (c : N) : N :=
  if (65 <=? c) && (c <=? 90) then c + 32 else c.

Fixpoint drop_while (p : N -> bool) (s : pystr) : pystr :=
  match s with
  | [] => []
  | c :: r => if p c then drop_while p r else s
  end.

(* ===================================================================== *)
(** ** What the program takes from outside the repository *)

(** Library functions whose tables or algorithms are not part of the
    repository. *)
Class Library := {
  (** [str.lower()] on a string that has a non-ASCII code point (CPython
      lowers an all-ASCII string by the ASCII rule and any other string
      through the Unicode case tables). *)
  unicode_lower : pystr -> pystr;
  (** [urllib.parse.urljoin] *)
  urljoin : pystr -> pystr -> pystr;
  (** [urllib.parse.urlparse(u).path] *)
  url_path : pystr -> pystr;
}.

(* ===================================================================== *)
(** ** slugify *)

(** [text.lower()] *)
Definition str_lower `{Library} (text : pystr) : pystr :=
  if forallb is_ascii_cp text then map ascii_lower text
  else unicode_lower text.

(** [re.sub(r"[\s]+", "-", s)]: scanning from the left, every maximal run
    of whitespace is one match and is replaced by one dash. *)
Equations? re_sub_spaces (s : pystr) : pystr by wf (length s) lt :=
  re_sub_spaces [] := [];
  re_sub_spaces (c :: r) :=
    if is_space c then dash :: re_sub_spaces (drop_while is_space r)
    else c :: re_sub_spaces r.
Proof.
  clear re_sub_spaces.
  induction r as [|d r IH]; simpl; [lia|].
  destruct (is_space d); simpl; lia.
Qed.

(** [re.sub(r"[^a-z0-9-]", "", s)]: every code point outside the class is a
    match and is replaced by the empty string. *)
Definition re_sub_nonslug (s : pystr) : pystr := List.filter is_slug_char s.

(** [s.strip("-")] *)
Definition strip_dashes (s : pystr) : pystr :=
  rev (drop_while is_dash (rev (drop_while is_dash s))).

Definition slugify `{Library} (text : pystr) : pystr :=
  py "🔲 " ++ strip_dashes (re_sub_nonslug (re_sub_spaces (str_lower text))).

(** *** The slug as the specification words it

    Lowercase; collapse every whitespace run to one separator; remove the
    code points outside [[a-z0-9-]]; trim the separators at both ends;
    prefix the marker. *)
Definition marker : pystr := [128306; 32].

Fixpoint collapse_runs (in_run : bool) (s : pystr) : pystr :=
  match s with
  | [] => []
  | c :: r =>
      if is_space c
      then (if in_run then collapse_runs true r else dash :: collapse_runs true r)
      else c :: collapse_runs false r
  end.

Definition remove_disallowed (s : pystr) : pystr :=
  flat_map (fun c => if is_slug_char c then [c] else []) s.

Fixpoint trim_leading (s : pystr) : pystr :=
  match s with
  | [] => []
  | c :: r => if is_dash c then trim_leading r else c :: r
  end.

Fixpoint trim_trailing (s : pystr) : pystr :=
  match s with
  | [] => []
  | c :: r =>
      match trim_trailing r with
      | [] => if is_dash c then [] else [c]
      | r' => c :: r'
      end
  end.

Definition slug_reference `{Library} (name : pystr) : pystr :=
  marker
    ++ trim_trailing (trim_leading
         (remove_disallowed (collapse_runs false (str_lower name)))).

(* ===================================================================== *)
(** ** The URL pattern of the link scan *)

(** Whether [https?://[^\s]+] matches at the head of [s]. *)
Definition url_at (s : pystr) : bool :=
  match s with
  | 104 :: 116 :: 116 :: 112 :: 58 :: 47 :: 47 :: c :: _ => negb (is_space c)
  | 104 :: 116 :: 116 :: 112 :: 115 :: 58 :: 47 :: 47 :: c :: _ =>
      negb (is_space c)
  | _ => false
  end.

(** The longest prefix without whitespace, and what follows it. *)
Fixpoint span_nonspace (s : pystr) : pystr * pystr :=
  match s with
  | [] => ([], [])
  | c :: r =>
      if is_space c then ([], s)
      else let '(m, rest) := span_nonspace r in (c :: m, rest)
  end.

(** [re.findall(r'(https?://[^\s]+)', s)]: the matches from left to right,
    each search resuming where the previous match ended.  The scheme and
    the slashes are themselves free of whitespace, so a match that starts
    at the head of [c :: r] is [c] followed by the longest whitespace-free
    prefix of [r]. *)
Equations? findall_urls (s : pystr) : list pystr by wf (length s) lt :=
  findall_urls [] := [];
  findall_urls (c :: r) :=
    if url_at (c :: r)
    then (c :: fst (span_nonspace r)) :: findall_urls (snd (span_nonspace r))
    else findall_urls r.
Proof.
  clear findall_urls. induction r as [|d r IH]; simpl; [lia|].
  destruct (is_space d); simpl; [lia|].
  destruct (span_nonspace r); simpl in *; lia.
Qed.

(* ===================================================================== *)
(** ** Exceptions, effects and the monad of the program *)

Inductive exn :=
| SystemExit (code : Z)
| JSONDecodeError
| KeyError (key : pystr)
| AttributeError
| TypeError.

Inductive result (A : Type) :=
| Ok (a : A)
| Raise (e : exn).
Arguments Ok {A} a.
Arguments Raise {A} e.

(** What a file opened with mode ["w"] or ["wb"] holds. *)
Inductive contents :=
| Text (s : pystr)
| Binary (b : list byte).

(** What a run does to the world, in the order in which it does it. *)
Inductive effect :=
| SetLevel (level : pystr)                (* logger.setLevel *)
| MakeDirs (path : pystr)                 (* os.makedirs(path, exist_ok=True) *)
| WriteFile (path : pystr) (c : contents) (* a [with open(path, mode)] block *)
| LogError (msg : pystr)                  (* logger.error *)
| ConsoleLog (msg : pystr)                (* progress.console.log *)
| ConsolePrint (msg : pystr)              (* console.print *)
| AddTask (description : pystr) (total : Z)   (* progress.add_task *)
| Advance (task : nat) (amount : Z).          (* progress.update(advance=) *)

(** A computation runs from the next free task id of the progress display
    and yields the effects it performed, the next free task id, and a value
    or the exception that stopped it. *)
Definition M (A : Type) : Type := nat -> list effect * nat * result A.

Definition ret {A} (a : A) : M A := fun n => ([], n, Ok a).

Definition bind {A B} (m : M A) (f : A -> M B) : M B := fun n =>
  let '(e1, n1, r) := m n in
  match r with
  | Ok a => let '(e2, n2, r2) := f a n1 in (e1 ++ e2, n2, r2)
  | Raise x => (e1, n1, Raise x)
  end.

Definition raise {A} (e : exn) : M A := fun n => ([], n, Raise e).

(** [try: m except: h] *)
Definition try_except {A} (m : M A) (h : exn -> M A) : M A := fun n =>
  let '(e1, n1, r) := m n in
  match r with
  | Ok a => (e1, n1, Ok a)
  | Raise x => let '(e2, n2, r2) := h x n1 in (e1 ++ e2, n2, r2)
  end.

Definition emit (e : effect) : M unit := fun n => ([e], n, Ok tt).

Declare Scope py_scope.
Delimit Scope py_scope with py.
Notation "x <- m ;; k" := (bind m (fun x => k))
  (at level 100, m at next level, right associativity) : py_scope.
Notation "m ;;; k" := (bind m (fun _ => k))
  (at level 100, right associativity) : py_scope.
Local Open Scope py_scope.

(** [for x in l: s = body(s, x)] *)
Fixpoint for_each {A S} (body : S -> A -> M S) (l : list A) (s : S) : M S :=
  match l with
  | [] => ret s
  | x :: l' => s' <- body s x ;; for_each body l' s'
  end.

(** [progress.add_task]: task ids are handed out in order. *)
Definition add_task (description : pystr) (total : Z) : M nat := fun n =>
  ([AddTask description total], S n, Ok n).

Definition update (task : nat) (amount : Z) : M unit :=
  emit (Advance task amount).

(** [with Progress(...) as progress]: a fresh display, whose task ids start
    at 0 and are gone with it. *)
Definition with_progress {A} (m : M A) : M A := fun n =>
  let '(e, _, r) := m 0%nat in (e, n, r).

(** [sys.exit(code)] *)
Definition sys_exit {A} (code : Z) : M A := raise (SystemExit code).

(** The three parts of what a computation yields. *)
Definition effs {A} (t : list effect * nat * result A) : list effect :=
  fst (fst t).
Definition next {A} (t : list effect * nat * result A) : nat := snd (fst t).
Definition res {A} (t : list effect * nat * result A) : result A := snd t.

(** The effects, the outcome and the exit status of a whole run. *)
Definition effects_of {A} (m : M A) : list effect := effs (m 0%nat).
Definition outcome_of {A} (m : M A) : result A := res (m 0%nat).

Definition exit_status {A} (r : result A) : Z :=
  match r with
  | Ok _ => 0
  | Raise (SystemExit code) => code
  | Raise _ => 1
  end.

(* ===================================================================== *)
(** ** The file system *)

(** Files by path.  Every [open] of the program is for writing and its
    block runs to its end, after which the file holds what the block
    wrote. *)
Definition apply_effect (fs : gmap pystr contents) (e : effect)
  : gmap pystr contents :=
  match e with
  | WriteFile path c => <[path := c]> fs
  | _ => fs
  end.

Definition replay (es : list effect) (fs : gmap pystr contents)
  : gmap pystr contents :=
  foldl apply_effect fs es.

(** The files a run opened for writing, in order. *)
Definition writes (es : list effect) : list (pystr * contents) :=
  flat_map (fun e => match e with WriteFile p c => [(p, c)] | _ => [] end) es.

(** Of these, the ones written in text mode. *)
Definition text_writes (es : list effect) : list (pystr * pystr) :=
  flat_map (fun e => match e with WriteFile p (Text s) => [(p, s)] | _ => [] end)
    es.

(* ===================================================================== *)
(** ** The documents of the CTFd API *)

(** A challenge object, summary or detail: the members the program reads,
    each of which may be missing, and whether the object has any member
    besides these. *)
Record challenge := {
  ch_id : option Z;
  ch_name : option pystr;
  ch_category : option pystr;
  ch_description : option pystr;
  ch_files : option (list pystr);
  ch_more : bool;
}.

(** The values of the [data] member. *)
Inductive json :=
| JNull
| JList (items : list challenge)
| JDict (c : challenge).

(** What [json.loads(response.text)] does: raise [JSONDecodeError]; return
    an object, of which the program reads [data]; or return a value that
    is not an object (an array, a string, a number, [null], a boolean). *)
Inductive body :=
| NotJson
| Envelope (data : option json)
| NotObject.

Record response := {
  resp_json : body;
  (** [response.headers.get('content-length')]: absent, or the number that
      [int] reads from it.  A header that [int] cannot read, on which the
      source raises [ValueError] before it opens the file, is outside the
      model. *)
  resp_content_length : option Z;
  (** [response.iter_content(chunk_size)]: the pieces in which the body is
      handed out.  Their sizes are those of the transfer (a chunked body
      comes chunk by chunk), not necessarily [chunk_size]. *)
  resp_iter_content : nat -> list (list byte);
}.

(** The bytes a download receives: the program iterates the body with
    [chunk_size=1024]. *)
Definition resp_content (r : response) : list byte :=
  concat (resp_iter_content r 1024).

(** The remote platform: the response to a GET of a URL with the headers
    the caller supplies. *)
Class Transport := {
  http_get : pystr -> list (pystr * pystr) -> response;
}.

(** [json.loads(response.text)]: the value it returns is an [Envelope] or
    [NotObject]. *)
Definition json_loads (r : response) : M body :=
  match resp_json r with
  | NotJson => raise JSONDecodeError
  | loaded => ret loaded
  end.

(** [loaded.get("data", default)]: only an object has the method. *)
Definition get_data (loaded : body) (default : json) : M json :=
  match loaded with
  | Envelope (Some d) => ret d
  | Envelope None => ret default
  | _ => raise AttributeError
  end.

(** [loaded["data"]]: a missing key of an object is a [KeyError]; a value
    that is not an object cannot be indexed by a string. *)
Definition getitem_data (loaded : body) : M json :=
  match loaded with
  | Envelope (Some d) => ret d
  | Envelope None => raise (KeyError (py "data"))
  | _ => raise TypeError
  end.

(** [challenge["id"]] *)
Definition getitem_id (c : challenge) : M Z :=
  match ch_id c with
  | Some i => ret i
  | None => raise (KeyError (py "id"))
  end.

(** [d.get(key, default)] on a challenge object. *)
Definition get {A} (member : challenge -> option A) (default : A)
    (c : challenge) : A :=
  match member c with
  | Some v => v
  | None => default
  end.

Definition present {A} (member : option A) : bool :=
  match member with
  | Some _ => true
  | None => false
  end.

(** [bool(d)] of a dict: whether it has a member. *)
Definition dict_nonempty (c : challenge) : bool :=
  present (ch_id c) || present (ch_name c) || present (ch_category c)
  || present (ch_description c) || present (ch_files c) || ch_more c.

(** [bool(v)] *)
Definition truthy (v : json) : bool :=
  match v with
  | JNull => false
  | JList items => match items with [] => false | _ => true end
  | JDict c => dict_nonempty c
  end.

(** [a or b] *)
Definition py_or (a b : json) : json := if truthy a then a else b.

(** The receiver of [.get]: only a dict has the method. *)
Definition as_dict (v : json) : M challenge :=
  match v with
  | JDict c => ret c
  | _ => raise AttributeError
  end.

(** [for challenge in challenges]: a list yields its items; [None] cannot be
    iterated; a dict yields its keys, which are strings, and the first
    statement of the loop body calls [.get] on the key. *)
Definition iter_challenges (v : json) : M (list challenge) :=
  match v with
  | JList items => ret items
  | JNull => raise TypeError
  | JDict c => if dict_nonempty c then raise AttributeError else ret []
  end.

(* ===================================================================== *)
(** ** The program *)

Definition CHALLENGES_FOLDER : pystr := py "📂 Challenges".

(** [os.path.join(a, b, c)] *)
Definition path_join3 (a b c : pystr) : pystr := path_join (path_join a b) c.

(** [s.split("/")[-1]]: what follows the last slash. *)
Fixpoint last_segment_from (acc s : pystr) : pystr :=
  match s with
  | [] => acc
  | c :: r => if c =? 47 then last_segment_from [] r
              else last_segment_from (acc ++ [c]) r
  end.
Definition last_segment (s : pystr) : pystr := last_segment_from [] s.

Definition create_directory_structure (output_dir : pystr) : M unit :=
  emit (MakeDirs output_dir) ;;;
  emit (MakeDirs (path_join output_dir CHALLENGES_FOLDER)).

Definition configure_logging (verbosity_level : nat) : M unit :=
  let log_level :=
    match verbosity_level with
    | 1%nat => py "INFO"
    | 2%nat => py "DEBUG"
    | _ => py "WARNING"
    end in
  emit (SetLevel log_level).

Section Program.
Context `{Library} `{Transport}.

Definition fetch_challenges (api_url : pystr) (headers : list (pystr * pystr))
  : M json :=
  let response := http_get (api_url ++ py "/challenges") headers in
  try_except
    (loaded <- json_loads response ;;
     get_data loaded (JList []))
    (fun e =>
       match e with
       | JSONDecodeError | KeyError _ =>
           emit (LogError (py "Failed to retrieve challenges")) ;;;
           sys_exit 1
       | _ => raise e
       end).

(** Returns [JNull] for Python's [None]. *)
Definition fetch_challenge_details (api_url : pystr) (challenge_id : Z)
    (headers : list (pystr * pystr)) : M json :=
  let response :=
    http_get (api_url ++ py "/challenges/" ++ str_of_int challenge_id) headers in
  try_except
    (loaded <- json_loads response ;;
     getitem_data loaded)
    (fun e =>
       match e with
       | JSONDecodeError | KeyError _ =>
           emit (LogError (py "Failed to retrieve details for challenge ID "
                             ++ str_of_int challenge_id)) ;;;
           ret JNull
       | _ => raise e
       end).

(** The loop of the [with open(destination, "wb") as file] block: [file] is
    what has been written so far, and is what the file holds when the
    block ends. *)
Definition write_chunks (file_task_id : nat) (chunks : list (list byte))
  : M (list byte) :=
  for_each
    (fun file chunk =>
       match chunk with
       | [] => ret file
       | _ => update file_task_id (Z.of_nat (length chunk)) ;;;
              ret (file ++ chunk)
       end)
    chunks [].

(** The [session] of the source is a [requests.Session()] without headers
    of its own. *)
Definition download_challenge_assets (url destination : pystr)
    (file_task_id : nat) : M unit :=
  let response := http_get url [] in
  let total_size := default 0%Z (resp_content_length response) in
  file <- write_chunks file_task_id (resp_iter_content response 1024) ;;
  emit (WriteFile destination (Binary file)) ;;;
  emit (ConsoleLog (py "Downloaded " ++ last_segment (url_path url)
                      ++ py " to " ++ destination)).

Definition save_challenge_metadata (challenge : challenge)
    (output_path : pystr) : M pystr :=
  let challenge_name := get ch_name (py "Unnamed Challenge") challenge in
  let challenge_description :=
    get ch_description (py "No description provided.") challenge in
  let file_path := path_join output_path (slugify challenge_name ++ py ".md") in
  emit (WriteFile file_path
          (Text (py "# " ++ challenge_name ++ newline ++ newline
                   ++ py "> " ++ challenge_description ++ newline ++ newline
                   ++ py "-------------------" ++ newline ++ newline))) ;;;
  ret file_path.

(** The loop over the attached files of a challenge. *)
Definition download_files (output_dir api_url challenge_name : pystr)
    (files : list pystr) : M unit :=
  for_each
    (fun _ file_url =>
       let file_name := last_segment (url_path file_url) in
       let download_path :=
         path_join3 output_dir CHALLENGES_FOLDER
           (slugify challenge_name ++ py "_" ++ file_name) in
       file_task_id <- add_task (py "Downloading File: " ++ file_name) 0 ;;
       download_challenge_assets (urljoin api_url file_url) download_path
         file_task_id)
    files tt.

(** The record the loop works on: the detail record, or the summary when
    the detail is falsy. *)
Definition challenge_data_of (details : json) (challenge : challenge) : json :=
  py_or details (JDict challenge).

(** One turn of the loop over the challenges; [links_to_review] is the list
    the loop extends. *)
Definition process_challenge (output_dir : pystr)
    (headers : list (pystr * pystr)) (api_url : pystr)
    (links_to_review : list pystr) (challenge : challenge)
  : M (list pystr) :=
  let challenge_name := get ch_name (py "Unnamed Challenge") challenge in
  task_id <- add_task (py "Processing Challenge: " ++ challenge_name) 100 ;;
  update task_id 10 ;;;
  challenge_id <- getitem_id challenge ;;
  details <- fetch_challenge_details api_url challenge_id headers ;;
  challenge_data <- as_dict (challenge_data_of details challenge) ;;
  let category := get ch_category (py "Uncategorized") challenge_data in
  let challenge_file_path :=
    path_join3 output_dir CHALLENGES_FOLDER
      (category ++ py "_" ++ slugify challenge_name ++ py ".md") in
  saved_file_path <-
    save_challenge_metadata challenge_data
      (path_join output_dir CHALLENGES_FOLDER) ;;
  emit (ConsoleLog (py "Saved challenge file: " ++ saved_file_path)) ;;;
  update task_id 40 ;;;
  download_files output_dir api_url challenge_name
    (get ch_files [] challenge_data) ;;;
  let links_to_review :=
    links_to_review ++ findall_urls (get ch_description [] challenge_data) in
  update task_id 50 ;;;
  ret links_to_review.

(** What the index entry of a summary links to:
    [{CHALLENGES_FOLDER}/{category}_{slugify(challenge_name)}.md]. *)
Definition link_target (challenge : challenge) : pystr :=
  let challenge_name := get ch_name (py "Unnamed Challenge") challenge in
  let category := get ch_category (py "Uncategorized") challenge in
  CHALLENGES_FOLDER ++ py "/" ++ category ++ py "_" ++ slugify challenge_name
    ++ py ".md".

(** One line of the index. *)
Definition readme_entry (challenge : challenge) : pystr :=
  let challenge_name := get ch_name (py "Unnamed Challenge") challenge in
  py "* [" ++ challenge_name ++ py "](<" ++ link_target challenge ++ py ">)"
    ++ newline.

Definition write_readme (challenges : list challenge)
    (output_dir ctf_name : pystr) : M unit :=
  emit (WriteFile (path_join output_dir (py "README.md"))
          (Text (py "# " ++ ctf_name ++ newline ++ newline
                   ++ py "## Challenges" ++ newline ++ newline
                   ++ flat_map readme_entry challenges))).

Definition advisory : pystr :=
  py "[bold yellow]External links found in descriptions; check for manual download needs.".

(** The loop over the challenges, which yields [links_to_review]. *)
Definition challenge_loop (challenges : list challenge) (output_dir : pystr)
    (headers : list (pystr * pystr)) (api_url : pystr) : M (list pystr) :=
  for_each (process_challenge output_dir headers api_url) challenges [].

Definition organize_challenges (challenges : json) (output_dir : pystr)
    (headers : list (pystr * pystr)) (api_url : pystr)
    (update_existing : bool) (ctf_name : pystr) : M unit :=
  with_progress
    (items <- iter_challenges challenges ;;
     links_to_review <- challenge_loop items output_dir headers api_url ;;
     write_readme items output_dir ctf_name ;;;
     match links_to_review with
     | [] => ret tt
     | _ => emit (ConsolePrint advisory)
     end).

(** The parsed command line. *)
Record arguments := {
  arg_url : pystr;
  arg_name : pystr;
  arg_session : pystr;
  arg_output : pystr;
  arg_update : bool;
  arg_verbose : nat;
}.

Definition main (args : arguments) : M unit :=
  configure_logging (arg_verbose args) ;;;
  create_directory_structure (arg_output args) ;;;
  let headers :=
    (py "Content-Type", py "application/json")
      :: (if startswith (arg_session args) (py "session=")
          then [(py "Cookie", arg_session args)]
          else [(py "Authorization", arg_session args)]) in
  let api_url := urljoin (arg_url args) (py "/api/v1") in
  challenges <- fetch_challenges api_url headers ;;
  organize_challenges challenges (arg_output args) headers api_url
    (arg_update args) (arg_name args) ;;;
  emit (ConsolePrint (py "[bold green]Download completed![/bold green]")).

End Program.

(* ===================================================================== *)
(** ** Vocabulary of the statements *)

Section Vocabulary.
Context `{Library} `{Transport}.

(** The headers and the API base that [main] derives from its arguments. *)
Definition headers_of (args : arguments) : list (pystr * pystr) :=
  (py "Content-Type", py "application/json")
    :: (if startswith (arg_session args) (py "session=")
        then [(py "Cookie", arg_session args)]
        else [(py "Authorization", arg_session args)]).

Definition api_url_of (args : arguments) : pystr :=
  urljoin (arg_url args) (py "/api/v1").

(** The parsed bodies of the two endpoints. *)
Definition list_body (api_url : pystr) (headers : list (pystr * pystr))
  : body :=
  resp_json (http_get (api_url ++ py "/challenges") headers).

Definition detail_body (api_url : pystr) (headers : list (pystr * pystr))
    (challenge_id : Z) : body :=
  resp_json
    (http_get (api_url ++ py "/challenges/" ++ str_of_int challenge_id) headers).

(** What [fetch_challenge_details] returns for a body. *)
Definition details_of (b : body) : json :=
  match b with
  | Envelope (Some d) => d
  | _ => JNull
  end.

(** A body that is malformed JSON or an object without [data]: the two
    failures that [fetch_challenge_details] catches. *)
Definition fetch_fails (b : body) : bool :=
  match b with
  | NotJson | Envelope None => true
  | Envelope (Some _) | NotObject => false
  end.

(** A detail body within the API contract: malformed JSON, or an object
    whose [data], when it has one, is an object or [null] (or an empty
    array, which is falsy as well). *)
Definition detail_in_contract (b : body) : bool :=
  match b with
  | Envelope (Some (JList (_ :: _))) | NotObject => false
  | _ => true
  end.

Definition summary_in_contract (api_url : pystr)
    (headers : list (pystr * pystr)) (c : challenge) : bool :=
  match ch_id c with
  | Some i => detail_in_contract (detail_body api_url headers i)
  | None => true
  end.

(** The record a challenge is processed with: its detail record when the
    fetch yields a non-empty object, the summary otherwise. *)
Definition record_used (api_url : pystr) (headers : list (pystr * pystr))
    (c : challenge) : challenge :=
  match ch_id c with
  | Some i =>
      match detail_body api_url headers i with
      | Envelope (Some (JDict d)) => if dict_nonempty d then d else c
      | _ => c
      end
  | None => c
  end.

(** The metadata file of a record: where it goes and its text. *)
Definition metadata_path (output_dir : pystr) (c : challenge) : pystr :=
  path_join (path_join output_dir CHALLENGES_FOLDER)
    (slugify (get ch_name (py "Unnamed Challenge") c) ++ py ".md").

Definition metadata_text (c : challenge) : pystr :=
  py "# " ++ get ch_name (py "Unnamed Challenge") c ++ [10; 10]
    ++ py "> " ++ get ch_description (py "No description provided.") c
    ++ [10; 10] ++ py "-------------------" ++ [10; 10].

(** The files a challenge leaves: the asset of an attached file goes by
    the slug of the summary's name and the base name of the URL; a
    challenge writes its metadata file and then its assets. *)
Definition asset_path (output_dir : pystr) (c : challenge) (file_url : pystr)
  : pystr :=
  path_join3 output_dir CHALLENGES_FOLDER
    (slugify (get ch_name (py "Unnamed Challenge") c) ++ py "_"
       ++ last_segment (url_path file_url)).

Definition challenge_writes (output_dir api_url : pystr)
    (headers : list (pystr * pystr)) (c : challenge)
  : list (pystr * contents) :=
  let r := record_used api_url headers c in
  (metadata_path output_dir r, Text (metadata_text r))
    :: map (fun file_url =>
              (asset_path output_dir c file_url,
               Binary (resp_content (http_get (urljoin api_url file_url) []))))
         (get ch_files [] r).

(** The index file. *)
Definition readme_path (output_dir : pystr) : pystr :=
  path_join output_dir (py "README.md").

Definition readme_text (ctf_name : pystr) (cs : list challenge) : pystr :=
  py "# " ++ ctf_name ++ [10; 10] ++ py "## Challenges" ++ [10; 10]
    ++ concat (map readme_entry cs).

(** The file that the index entry of a summary links to: the index lies in
    the output directory and its links are relative to it. *)
Definition linked_path (output_dir : pystr) (c : challenge) : pystr :=
  path_join output_dir (link_target c).

(** The lines [console.print] produced. *)
Definition prints (es : list effect) : list pystr :=
  flat_map (fun e => match e with ConsolePrint m => [m] | _ => [] end) es.

Definition completed : pystr :=
  py "[bold green]Download completed![/bold green]".

Definition set_update (b : bool) (args : arguments) : arguments :=
  {| arg_url := arg_url args; arg_name := arg_name args;
     arg_session := arg_session args; arg_output := arg_output args;
     arg_update := b; arg_verbose := arg_verbose args |}.

End Vocabulary.

(* ===================================================================== *)
(** ** A platform for the examples *)

(** [scheme://host] of a URL: what precedes its third slash. *)
Fixpoint origin_from (slashes : nat) (u : pystr) : pystr :=
  match u with
  | [] => []
  | c :: r =>
      if c =? 47
      then match slashes with
           | 2%nat => []
           | _ => c :: origin_from (S slashes) r
           end
      else c :: origin_from slashes r
  end.

(** The library on the URLs of the examples, which are of the form
    [scheme://host/path]; a reference is an absolute path. *)
Definition example_library : Library := {|
  unicode_lower := map ascii_lower;
  urljoin := fun base ref => origin_from 0 base ++ ref;
  url_path := fun u => if startswith u (py "/") then u
                       else drop (length (origin_from 0 u)) u;
|}.

Definition no_response : response :=
  {| resp_json := NotJson; resp_content_length := None;
     resp_iter_content := fun _ => [] |}.

Definition json_response (data : option json) : response :=
  {| resp_json := Envelope data; resp_content_length := None;
     resp_iter_content := fun _ => [] |}.

Definition summary (i : Z) (name : pystr) (category : option pystr)
  : challenge :=
  {| ch_id := Some i; ch_name := Some name; ch_category := category;
     ch_description := None; ch_files := None; ch_more := false |}.

Definition sqli : challenge := summary 1 (py "SQL Injection 101!!!") (Some (py "web")).
Definition crackme : challenge := summary 2 (py "Crack Me") None.
Definition babyre : challenge := summary 3 (py "Baby RE") (Some (py "rev")).

Definition sqli_detail : challenge :=
  {| ch_id := Some 1%Z; ch_name := Some (py "SQL Injection 101!!!");
     ch_category := Some (py "web");
     ch_description :=
       Some (py "Dump the table. See https://example.com/a and http://example.com/b for hints.");
     ch_files := Some [py "/files/abc/dump.sql"]; ch_more := true |}.

Definition dump_sql : list byte := [x53; x45; x4c; x45; x43; x54; x0a].

(** A platform with three challenges: the detail of the first is served
    with one attached file (and no content-length), the detail of the
    second is not JSON, the detail of the third has no [data]. *)
Definition example_platform : Transport := {|
  http_get := fun url _ =>
    if decide (url = py "http://ctf.example/api/v1/challenges")
    then json_response (Some (JList [sqli; crackme; babyre]))
    else if decide (url = py "http://ctf.example/api/v1/challenges/1")
    then json_response (Some (JDict sqli_detail))
    else if decide (url = py "http://ctf.example/api/v1/challenges/2")
    then no_response
    else if decide (url = py "http://ctf.example/api/v1/challenges/3")
    then json_response None
    else if decide (url = py "http://ctf.example/files/abc/dump.sql")
    then {| resp_json := NotJson; resp_content_length := None;
            resp_iter_content := fun _ => [dump_sql] |}
    else no_response;
|}.

(** A platform whose list endpoint serves an envelope without [data]. *)
Definition platform_without_data : Transport := {|
  http_get := fun _ _ => json_response None;
|}.

(** A summary without an id. *)
Definition nameless : challenge :=
  {| ch_id := None; ch_name := Some (py "Crack Me"); ch_category := None;
     ch_description := None; ch_files := None; ch_more := false |}.

Definition example_args : arguments :=
  {| arg_url := py "http://ctf.example"; arg_name := py "ExampleCTF";
     arg_session := py "session=abc"; arg_output := py "out";
     arg_update := false; arg_verbose := 0 |}.

(** A platform on which nothing is JSON. *)
Definition platform_not_json : Transport := {|
  http_get := fun _ _ => no_response;
|}.

(** A platform whose envelopes have [data: null]. *)
Definition platform_null_data : Transport := {|
  http_get := fun _ _ => json_response (Some JNull);
|}.





(* ===================================================================== *)
(** ** Further vocabulary *)

(** ASCII letters and digits. *)
Definition is_alnum (c : N) : bool :=
  ((48 <=? c) && (c <=? 57)) || ((65 <=? c) && (c <=? 90))
  || ((97 <=? c) && (c <=? 122)).

(** How far the effects advance a task of the progress display. *)
Definition advanced (task : nat) (es : list effect) : Z :=
  fold_right
    (fun e total =>
       match e with
       | Advance t amount => if Nat.eqb t task then (amount + total)%Z else total
       | _ => total
       end)
    0%Z es.

(** The lines [logger.error] produced. *)
Definition errors (es : list effect) : list pystr :=
  flat_map (fun e => match e with LogError m => [m] | _ => [] end) es.

(** The directories a run made. *)
Definition made_dirs (es : list effect) : list pystr :=
  flat_map (fun e => match e with MakeDirs p => [p] | _ => [] end) es.

(** A file directly inside the challenges folder of the output directory:
    the folder, one separator, and a name that begins with the marker of
    the slugs and has no separator. *)
Definition in_challenges_folder (output_dir path : pystr) : Prop :=
  exists name,
    ~ In 47 name
    /\ startswith name (py "🔲 ") = true
    /\ path = path_join output_dir CHALLENGES_FOLDER ++ py "/" ++ name.

Section Processed.
Context `{Transport}.

(** The challenges a list body hands to the loop of [organize_challenges]:
    the items of [data] when it is an array; none otherwise (the run then
    either stops before the loop or loops over nothing). *)
Definition challenges_of (b : body) : list challenge :=
  match b with
  | Envelope (Some (JList cs)) => cs
  | _ => []
  end.

(** The challenges of a list that the loop processes to the end: those
    before the first summary without an id or with a detail body outside
    the contract, at which the loop raises. *)
Fixpoint processed (api_url : pystr) (headers : list (pystr * pystr))
    (cs : list challenge) : list challenge :=
  match cs with
  | [] => []
  | c :: rest =>
      if present (ch_id c) && summary_in_contract api_url headers c
      then c :: processed api_url headers rest
      else []
  end.

End Processed.

(** A chunk that passes the test [if chunk:] of the download loop. *)
Definition nonempty (chunk : list byte) : bool :=
  match chunk with
  | [] => false
  | _ => true
  end.

(** The amounts by which the effects advance the progress display, in
    order. *)
Definition advances (es : list effect) : list Z :=
  flat_map (fun e => match e with Advance _ a => [a] | _ => [] end) es.

(** A platform that sends every body with chunked transfer encoding, in
    three chunks of 700 bytes: [iter_content] hands them out as they
    arrive, whatever [chunk_size] asks for. *)
Definition platform_chunked : Transport := {|
  http_get := fun _ _ =>
    {| resp_json := NotJson; resp_content_length := None;
       resp_iter_content := fun _ =>
         [repeat x41 700; repeat x41 700; repeat x41 700] |};
|}.



(* ===================================================================== *)
(** * Properties *)

(** ** The slug *)

Lemma re_sub_spaces_collapse (s : pystr) :
  re_sub_spaces s = collapse_runs false s
  /\ re_sub_spaces (drop_while is_space s) = collapse_runs true s.
Proof.
  induction s as [|c r [IH1 IH2]]; simp re_sub_spaces; simpl; [done|].
  destruct (is_space c) eqn:Hc.
  - rewrite IH2. split; [done|]. done.
  - simp re_sub_spaces. rewrite Hc, IH1. done.
Qed.

Lemma re_sub_nonslug_remove (s : pystr) :
  re_sub_nonslug s = remove_disallowed s.
Proof.
  unfold re_sub_nonslug, remove_disallowed.
  induction s as [|c r IH]; simpl; [done|].
  destruct (is_slug_char c); simpl; by rewrite IH.
Qed.

Lemma drop_while_trim_leading (s : pystr) :
  drop_while is_dash s = trim_leading s.
Proof. induction s as [|c r IH]; simpl; [done|]. by destruct (is_dash c). Qed.

Lemma trim_trailing_snoc (s : pystr) (c : N) :
  trim_trailing (s ++ [c]) = if is_dash c then trim_trailing s else s ++ [c].
Proof.
  induction s as [|a s IH]; simpl.
  - by destruct (is_dash c).
  - rewrite IH. destruct (is_dash c); [done|].
    by destruct s.
Qed.

Lemma rev_drop_while_trim_trailing (s : pystr) :
  rev (drop_while is_dash (rev s)) = trim_trailing s.
Proof.
  induction s as [|c s IH] using rev_ind; [done|].
  rewrite rev_app_distr, trim_trailing_snoc. simpl.
  destruct (is_dash c); [done|].
  simpl. by rewrite rev_involutive.
Qed.

Lemma strip_dashes_trim (s : pystr) :
  strip_dashes s = trim_trailing (trim_leading s).
Proof.
  unfold strip_dashes.
  by rewrite rev_drop_while_trim_trailing, drop_while_trim_leading.
Qed.

(** C5. [slugify] is a total function that equals the reference transform
    (lowercase, collapse every whitespace run to one dash, remove what is
    outside [[a-z0-9-]], trim the dashes at both ends, prefix the marker);
    so every result, also that of the empty string, begins with the marker,
    and [slugify("SQL Injection 101!!!")] is the marker followed by
    [sql-injection-101]. *)
Theorem slugify_is_reference_transform `{Library} :
  (forall text : pystr, slugify text = slug_reference text)
  /\ (forall text : pystr, exists rest, slugify text = py "🔲 " ++ rest)
  /\ slugify [] = py "🔲 "
  /\ slugify (py "SQL Injection 101!!!") = py "🔲 sql-injection-101".
Proof.
  split; [|split; [|split]].
  - intros text. unfold slugify, slug_reference.
    rewrite strip_dashes_trim, re_sub_nonslug_remove.
    by rewrite (proj1 (re_sub_spaces_collapse _)).
  - intros text. by eexists.
  - reflexivity.
  - reflexivity.
Qed.

(* ===================================================================== *)
(** ** Running computations *)

Lemma effs_bind {A B} (m : M A) (f : A -> M B) (n : nat) :
  effs (bind m f n)
  = effs (m n) ++ match res (m n) with
                  | Ok a => effs (f a (next (m n)))
                  | Raise _ => []
                  end.
Proof.
  unfold bind, effs, res, next.
  destruct (m n) as [[e1 n1] [a|x]]; simpl; [|by rewrite app_nil_r].
  by destruct (f a n1) as [[e2 n2] r2].
Qed.

Lemma res_bind {A B} (m : M A) (f : A -> M B) (n : nat) :
  res (bind m f n)
  = match res (m n) with
    | Ok a => res (f a (next (m n)))
    | Raise x => Raise x
    end.
Proof.
  unfold bind, res, next.
  destruct (m n) as [[e1 n1] [a|x]]; simpl; [|done].
  by destruct (f a n1) as [[e2 n2] r2].
Qed.

Lemma next_bind {A B} (m : M A) (f : A -> M B) (n : nat) :
  next (bind m f n)
  = match res (m n) with
    | Ok a => next (f a (next (m n)))
    | Raise x => next (m n)
    end.
Proof.
  unfold bind, res, next.
  destruct (m n) as [[e1 n1] [a|x]]; simpl; [|done].
  by destruct (f a n1) as [[e2 n2] r2].
Qed.

Lemma run_eta {A} (t : list effect * nat * result A) :
  t = (effs t, next t, res t).
Proof. by destruct t as [[e n] r]. Qed.

Lemma effs_with_progress {A} (m : M A) (n : nat) :
  effs (with_progress m n) = effs (m 0%nat).
Proof. unfold with_progress, effs. by destruct (m 0%nat) as [[e k] r]. Qed.

Lemma res_with_progress {A} (m : M A) (n : nat) :
  res (with_progress m n) = res (m 0%nat).
Proof. unfold with_progress, res. by destruct (m 0%nat) as [[e k] r]. Qed.

Lemma next_with_progress {A} (m : M A) (n : nat) :
  next (with_progress m n) = n.
Proof. unfold with_progress, next. by destruct (m 0%nat) as [[e k] r]. Qed.

(** A loop all of whose turns return. *)
Lemma for_each_returns {A S} (body : S -> A -> M S) (step : S -> A -> S)
    (l : list A) :
  (forall s x n, In x l -> res (body s x n) = Ok (step s x)) ->
  forall s n, res (for_each body l s n) = Ok (fold_left step l s).
Proof.
  induction l as [|x l IH]; intros Hbody s n; simpl; [done|].
  rewrite res_bind, Hbody by (by left).
  apply IH. intros; apply Hbody. by right.
Qed.

(** What such a loop leaves of its effects under a projection. *)
Lemma for_each_projects {A S B} (phi : effect -> list B)
    (body : S -> A -> M S) (step : S -> A -> S) (w : A -> list B)
    (l : list A) :
  (forall s x n, In x l -> res (body s x n) = Ok (step s x)) ->
  (forall s x n, In x l -> flat_map phi (effs (body s x n)) = w x) ->
  forall s n, flat_map phi (effs (for_each body l s n)) = flat_map w l.
Proof.
  induction l as [|x l IH]; intros Hres Hphi s n; simpl; [done|].
  rewrite effs_bind, flat_map_app, Hres, Hphi by (by left).
  f_equal. apply IH; intros; [apply Hres | apply Hphi]; by right.
Qed.

(** A property of the effects that every turn has, whatever its outcome. *)
Lemma for_each_invariant {A S} (P : list effect -> Prop)
    (body : S -> A -> M S) (l : list A) :
  P [] -> (forall a b, P a -> P b -> P (a ++ b)) ->
  (forall s x n, In x l -> P (effs (body s x n))) ->
  forall s n, P (effs (for_each body l s n)).
Proof.
  intros Hnil Happ.
  induction l as [|x l IH]; intros Hbody s n; simpl; [done|].
  rewrite effs_bind. apply Happ; [apply Hbody; by left|].
  destruct (res (body s x n)); [|done].
  apply IH. intros; apply Hbody. by right.
Qed.

(** A loop stops at the first turn that raises. *)
Lemma for_each_raises {A S} (body : S -> A -> M S) (step : S -> A -> S)
    (l1 l2 : list A) (x : A) (e : exn) :
  (forall s y n, In y l1 -> res (body s y n) = Ok (step s y)) ->
  (forall s n, res (body s x n) = Raise e) ->
  forall s n, res (for_each body (l1 ++ x :: l2) s n) = Raise e.
Proof.
  induction l1 as [|y l1 IH]; intros Hok Hx s n; simpl.
  - by rewrite res_bind, Hx.
  - rewrite res_bind, Hok by (by left).
    apply IH; [|done]. intros; apply Hok. by right.
Qed.

(* ===================================================================== *)
(** ** Replaying writes *)

Lemma writes_app (a b : list effect) : writes (a ++ b) = writes a ++ writes b.
Proof. unfold writes. apply flat_map_app. Qed.

Lemma replay_app (a b : list effect) (fs : gmap pystr contents) :
  replay (a ++ b) fs = replay b (replay a fs).
Proof. unfold replay. by rewrite foldl_app. Qed.

Lemma replay_no_writes (es : list effect) (fs : gmap pystr contents) :
  writes es = [] -> replay es fs = fs.
Proof.
  revert fs. induction es as [|e es IH]; intros fs Hw; [done|].
  destruct e; simpl in *; try (by apply IH). done.
Qed.

Lemma replay_union (es : list effect) (fs : gmap pystr contents) :
  replay es fs = replay es ∅ ∪ fs.
Proof.
  revert fs. induction es as [|e es IH]; intros fs; simpl.
  - by rewrite (left_id_L ∅ (∪)).
  - destruct e; simpl; try apply IH.
    rewrite IH, (IH (<[path:=c]> ∅)).
    rewrite <- (assoc_L (∪)). f_equal.
    by rewrite insert_union_singleton_l, insert_empty.
Qed.

Lemma replay_twice (es : list effect) (fs : gmap pystr contents) :
  replay es (replay es fs) = replay es fs.
Proof.
  rewrite (replay_union es (replay es fs)), (replay_union es fs).
  by rewrite (assoc_L (∪)), (idemp_L (∪)).
Qed.

Lemma replay_untouched (es : list effect) (fs : gmap pystr contents)
    (p : pystr) :
  ~ In p (map fst (writes es)) -> replay es fs !! p = fs !! p.
Proof.
  revert fs. induction es as [|e es IH]; intros fs Hp; [done|].
  destruct e; simpl in *; try (by apply IH).
  rewrite IH by tauto.
  apply lookup_insert_ne. intros ->. tauto.
Qed.

Lemma replay_writes (es : list effect) (fs : gmap pystr contents) :
  replay es fs = foldl (fun fs w => <[fst w := snd w]> fs) fs (writes es).
Proof.
  revert fs. induction es as [|e es IH]; intros fs; [done|].
  destruct e; simpl; apply IH.
Qed.

(** The file at a path holds what the last write to the path put there. *)
Lemma replay_last_write (es : list effect) (fs : gmap pystr contents)
    (before after : list (pystr * contents)) (path : pystr) (c : contents) :
  writes es = before ++ (path, c) :: after ->
  ~ In path (map fst after) ->
  replay es fs !! path = Some c.
Proof.
  intros Hw Hafter. rewrite replay_writes, Hw, foldl_app. simpl.
  generalize (foldl (fun fs w => <[fst w := snd w]> fs) fs before).
  intros m. set (m' := <[path := c]> m).
  assert (Hm' : m' !! path = Some c) by apply lookup_insert_eq.
  clearbody m'. clear m Hw. revert m' Hm'.
  induction after as [|[q d] after IH]; intros m Hm; [done|].
  cbn [map fst foldl snd] in *.
  assert (Hq : q <> path) by (intros ->; apply Hafter; by left).
  assert (Hrest : ~ In path (map fst after))
    by (intros Hin; apply Hafter; by right).
  apply (IH Hrest). by rewrite lookup_insert_ne.
Qed.

(* ===================================================================== *)
(** ** The metadata writer *)

(** C9. [save_challenge_metadata] replaces whatever the target path held by
    the stub (it never merges), takes a fixed placeholder for a missing
    name and another for a missing description, writes the name as a
    heading followed by the description as a quoted block, and returns the
    path it wrote. *)
Theorem save_challenge_metadata_overwrites_stub `{Library} :
  forall (c : challenge) (output_path : pystr) (n : nat)
         (fs : gmap pystr contents),
    let name :=
      match ch_name c with Some s => s | None => py "Unnamed Challenge" end in
    let description :=
      match ch_description c with
      | Some s => s
      | None => py "No description provided."
      end in
    let file_path := path_join output_path (slugify name ++ py ".md") in
    let stub :=
      py "# " ++ name ++ [10; 10] ++ py "> " ++ description ++ [10; 10]
        ++ py "-------------------" ++ [10; 10] in
    let run := save_challenge_metadata c output_path n in
    res run = Ok file_path
    /\ writes (effs run) = [(file_path, Text stub)]
    /\ replay (effs run) fs = <[file_path := Text stub]> fs.
Proof.
  intros c output_path n fs. cbv zeta.
  unfold save_challenge_metadata, get.
  rewrite res_bind, effs_bind. simpl.
  destruct (ch_name c), (ch_description c); simpl;
    rewrite <- ?app_assoc; simpl; done.
Qed.

(* ===================================================================== *)
(** ** The asset downloader *)

Lemma fold_chunks (chunks : list (list byte)) (file : list byte) :
  fold_left
    (fun file chunk => match chunk with [] => file | _ => file ++ chunk end)
    chunks file
  = file ++ concat chunks.
Proof.
  revert file. induction chunks as [|c chunks IH]; intros file; simpl.
  - by rewrite app_nil_r.
  - rewrite IH. destruct c; [done|]. by rewrite <- app_assoc.
Qed.

Lemma flat_map_singleton {A B} (f : A -> B) (l : list A) :
  flat_map (fun x => [f x]) l = map f l.
Proof. induction l as [|x l IH]; simpl; [done|]. by rewrite IH. Qed.

Lemma flat_map_nothing {A B} (l : list A) :
  flat_map (fun _ : A => @nil B) l = [].
Proof. by induction l. Qed.

Section Downloader.
Context `{Library} `{Transport}.

Lemma write_chunks_returns (task : nat) (chunks : list (list byte)) (n : nat) :
  res (write_chunks task chunks n) = Ok (concat chunks).
Proof.
  unfold write_chunks.
  erewrite for_each_returns
    with (step := fun file chunk =>
                    match chunk with [] => file | _ => file ++ chunk end).
  - by rewrite fold_chunks.
  - intros s x k _. by destruct x.
Qed.

Lemma write_chunks_next (task : nat) (chunks : list (list byte)) (n : nat) :
  next (write_chunks task chunks n) = n.
Proof.
  unfold write_chunks. generalize (@nil byte).
  induction chunks as [|c chunks IH]; intros file; simpl; [done|].
  rewrite next_bind. destruct c; simpl; apply IH.
Qed.

Lemma write_chunks_only_advances {B} (phi : effect -> list B) (task : nat)
    (chunks : list (list byte)) (n : nat) :
  (forall t a, phi (Advance t a) = []) ->
  flat_map phi (effs (write_chunks task chunks n)) = [].
Proof.
  intros Hphi. unfold write_chunks.
  erewrite for_each_projects
    with (step := fun file chunk =>
                    match chunk with [] => file | _ => file ++ chunk end)
         (w := fun _ => []).
  - apply flat_map_nothing.
  - intros s x k _. by destruct x.
  - intros s x k _. destruct x; simpl; [done|]. by rewrite Hphi.
Qed.

Lemma write_chunks_no_writes (task : nat) (chunks : list (list byte))
    (n : nat) :
  writes (effs (write_chunks task chunks n)) = [].
Proof. by apply write_chunks_only_advances. Qed.

Lemma download_run (url destination : pystr) (task n : nat) :
  download_challenge_assets url destination task n
  = (effs (write_chunks task (resp_iter_content (http_get url []) 1024) n)
       ++ [WriteFile destination (Binary (resp_content (http_get url [])));
           ConsoleLog (py "Downloaded " ++ last_segment (url_path url)
                         ++ py " to " ++ destination)],
     n, Ok tt).
Proof.
  rewrite (run_eta (download_challenge_assets _ _ _ _)).
  unfold download_challenge_assets.
  by rewrite effs_bind, next_bind, res_bind, write_chunks_returns,
    write_chunks_next.
Qed.

Lemma write_chunks_effs (task : nat) (chunks : list (list byte)) (n : nat) :
  effs (write_chunks task chunks n)
  = map (fun chunk => Advance task (Z.of_nat (length chunk)))
      (List.filter nonempty chunks).
Proof.
  unfold write_chunks. generalize (@nil byte).
  induction chunks as [|c chunks IH]; intros file; [done|].
  cbn [for_each]. rewrite effs_bind.
  destruct c as [|b c].
  - cbn [effs ret fst snd res next List.filter nonempty app]. apply IH.
  - rewrite effs_bind, next_bind, res_bind.
    cbn [update emit ret effs res next fst snd List.filter nonempty map app].
    f_equal. apply IH.
Qed.

Lemma concat_nonempty (chunks : list (list byte)) :
  concat (List.filter nonempty chunks) = concat chunks.
Proof.
  induction chunks as [|[|b c] chunks IH]; cbn [List.filter nonempty concat];
    [done|done|]. by rewrite IH.
Qed.

Lemma length_concat_sum {A} (ls : list (list A)) :
  length (concat ls) = list_sum (map length ls).
Proof.
  induction ls as [|l ls IH]; cbn [concat map]; [done|].
  change (list_sum (?n :: ?l)) with (n + list_sum l)%nat.
  rewrite length_app. lia.
Qed.

End Downloader.

(** C7, the claim as stated fails: on a body that arrives in three chunks
    of 700 bytes the download completes, and the pieces it appends to the
    file are those three, none of which has 1024 bytes: the pieces are not
    of a fixed size of 1024 bytes with a shorter last one. *)
Lemma chunked_body_is_not_cut_at_1024 :
  let url := py "http://ctf.example/files/abc/big.bin" in
  let destination := py "out/big.bin" in
  let response := @http_get platform_chunked url [] in
  let chunks := resp_iter_content response 1024 in
  let run :=
    @download_challenge_assets example_library platform_chunked
      url destination 0%nat 0%nat in
  resp_content_length response = None
  /\ res run = Ok tt
  /\ advances (effs run) = [700; 700; 700]%Z
  /\ writes (effs run) = [(destination, Binary (repeat x41 2100))]
  /\ ~ (forall i chunk, chunks !! i = Some chunk ->
                        (S i < length chunks)%nat -> length chunk = 1024%nat).
Proof.
  cbv zeta. split; [done|]. split; [by vm_compute|].
  split; [by vm_compute|]. split; [by vm_compute|].
  intros Hfixed. specialize (Hfixed 0%nat (repeat x41 700)).
  cbn [platform_chunked http_get resp_iter_content lookup list_lookup length]
    in Hfixed.
  specialize (Hfixed eq_refl ltac:(lia)).
  rewrite repeat_length in Hfixed. discriminate Hfixed.
Qed.

(** C7, as amended.  For every response (its content-length absent or a
    number), [download_challenge_assets] asks for the body in chunks of
    1024 bytes and goes through the pieces it is handed, whatever their
    sizes: for each non-empty piece, in order, it appends the piece to the
    file and advances the progress bar by the length of the piece; an
    empty piece is skipped.  It then logs the download and returns.  The
    destination file is replaced by the concatenation of the pieces, the
    other files are untouched, and the size of the file is the sum of the
    lengths of the pieces, which is the amount the progress bar advanced.
    The content-length plays no part. *)
Theorem download_streams_body_to_file `{Library} `{Transport} :
  forall (url destination : pystr) (task n : nat) (fs : gmap pystr contents),
    let response := http_get url [] in
    let chunks := resp_iter_content response 1024 in
    let written := List.filter nonempty chunks in
    let run := download_challenge_assets url destination task n in
    res run = Ok tt
    /\ effs run
       = map (fun chunk => Advance task (Z.of_nat (length chunk))) written
           ++ [WriteFile destination (Binary (concat written));
               ConsoleLog (py "Downloaded " ++ last_segment (url_path url)
                             ++ py " to " ++ destination)]
    /\ replay (effs run) fs = <[destination := Binary (concat written)]> fs
    /\ concat written = concat chunks
    /\ length (concat written) = list_sum (map length written)
    /\ advances (effs run) = map (fun chunk => Z.of_nat (length chunk)) written.
Proof.
  intros url destination task n fs. cbv zeta.
  rewrite download_run. cbn [res effs fst snd].
  rewrite write_chunks_effs. unfold resp_content.
  rewrite <- concat_nonempty.
  set (chunks := resp_iter_content (http_get url []) 1024).
  split; [done|]. split; [done|].
  split; [|split; [by rewrite concat_nonempty|split]].
  - rewrite replay_app.
    rewrite (replay_no_writes (map _ (List.filter nonempty chunks))).
    + done.
    + unfold writes. rewrite flat_map_concat_map, map_map.
      generalize (List.filter nonempty chunks).
      induction l as [|c l IH]; [done|]. cbn [map concat app]. exact IH.
  - apply length_concat_sum.
  - unfold advances. rewrite flat_map_app.
    cbn [flat_map app]. rewrite app_nil_r.
    generalize (List.filter nonempty chunks).
    induction l as [|c l IH]; [done|]. cbn [map flat_map app].
    by rewrite IH.
Qed.

(* ===================================================================== *)
(** ** Paths *)

Lemma path_join_relative (a b : pystr) :
  startswith b (py "/") = false ->
  path_join a b
  = a ++ (if (match a with [] => true | _ => false end) || endswith a (py "/")
          then [] else py "/") ++ b.
Proof.
  intros Hb. unfold path_join. rewrite Hb.
  by destruct (_ || _).
Qed.

(** No file of the challenges folder is the index file. *)
Lemma folder_file_not_readme (output_dir rest : pystr) :
  path_join3 output_dir CHALLENGES_FOLDER (py "🔲 " ++ rest)
  <> path_join output_dir (py "README.md").
Proof.
  unfold path_join3.
  rewrite (path_join_relative output_dir CHALLENGES_FOLDER) by done.
  rewrite (path_join_relative output_dir (py "README.md")) by done.
  rewrite (path_join_relative _ (py "🔲 " ++ rest)) by done.
  set (sep := if _ || endswith output_dir _ then _ else _).
  assert (Hsep : (match output_dir ++ sep ++ CHALLENGES_FOLDER with
                  | [] => true | _ => false end
                  || endswith (output_dir ++ sep ++ CHALLENGES_FOLDER) (py "/"))
                 = false).
  { unfold endswith. rewrite !rev_app_distr.
    destruct output_dir; simpl; [|done]. subst sep. done. }
  rewrite Hsep, <- !app_assoc.
  intros Heq. apply app_inv_head in Heq. apply app_inv_head in Heq.
  discriminate Heq.
Qed.

Lemma drop_while_subset (p : N -> bool) (s : pystr) (x : N) :
  In x (drop_while p s) -> In x s.
Proof.
  induction s as [|c r IH]; simpl; [done|].
  destruct (p c); [|done]. intros Hin. right. by apply IH.
Qed.

(** A slug has no underscore. *)
Lemma slugify_no_underscore `{Library} (text : pystr) :
  ~ In 95 (slugify text).
Proof.
  unfold slugify. rewrite in_app_iff. intros [Hin|Hin].
  - vm_compute in Hin. intuition discriminate.
  - unfold strip_dashes in Hin. rewrite <- in_rev in Hin.
    apply drop_while_subset in Hin. rewrite <- in_rev in Hin.
    apply drop_while_subset in Hin.
    unfold re_sub_nonslug in Hin. apply filter_In in Hin as [_ Hin].
    vm_compute in Hin. discriminate.
Qed.

(* ===================================================================== *)
(** ** The orchestrator *)

Section Orchestrator.
Context `{Library} `{Transport}.

Lemma fetch_challenge_details_run (api_url : pystr) (i : Z)
    (headers : list (pystr * pystr)) (n : nat) :
  fetch_challenge_details api_url i headers n
  = ((if fetch_fails (detail_body api_url headers i)
      then [LogError (py "Failed to retrieve details for challenge ID "
                        ++ str_of_int i)]
      else []),
     n,
     match detail_body api_url headers i with
     | NotObject => Raise TypeError
     | _ => Ok (details_of (detail_body api_url headers i))
     end).
Proof.
  unfold fetch_challenge_details, detail_body, json_loads, try_except, bind.
  by destruct (resp_json _) as [|[d|]|].
Qed.

Lemma not_object_dec (b : body) : {b = NotObject} + {b <> NotObject}.
Proof. destruct b; [by right|by right|by left]. Qed.

Lemma fetched_object (b : body) :
  b <> NotObject ->
  match b with
  | NotObject => Raise TypeError
  | _ => Ok (details_of b)
  end = Ok (details_of b).
Proof. by destruct b. Qed.

Lemma in_contract_object (b : body) :
  detail_in_contract b = true -> b <> NotObject.
Proof. by intros Hc ->. Qed.

Lemma as_dict_record_used (api_url : pystr) (headers : list (pystr * pystr))
    (c : challenge) (i : Z) :
  ch_id c = Some i ->
  detail_in_contract (detail_body api_url headers i) = true ->
  as_dict (challenge_data_of (details_of (detail_body api_url headers i)) c)
  = ret (record_used api_url headers c).
Proof.
  intros Hid Hc. unfold record_used, challenge_data_of, py_or. rewrite Hid.
  destruct (detail_body api_url headers i) as [|[[|[|]|d]|]|];
    simpl in *; try done.
  by destruct (dict_nonempty d).
Qed.

Lemma download_files_res (output_dir api_url name : pystr)
    (files : list pystr) (n : nat) :
  res (download_files output_dir api_url name files n) = Ok tt.
Proof.
  unfold download_files.
  erewrite for_each_returns with (step := fun _ _ => tt).
  - by destruct (fold_left _ _ _).
  - intros [] x k _. rewrite res_bind. cbn [add_task res next fst snd].
    by rewrite download_run.
Qed.

(** The downloads only add tasks, advance them, write binary files and log
    to the console. *)
Lemma download_files_silent {B} (phi : effect -> list B)
    (output_dir api_url name : pystr) (files : list pystr) (n : nat) :
  (forall d t, phi (AddTask d t) = []) ->
  (forall t a, phi (Advance t a) = []) ->
  (forall m, phi (ConsoleLog m) = []) ->
  (forall p b, phi (WriteFile p (Binary b)) = []) ->
  flat_map phi (effs (download_files output_dir api_url name files n)) = [].
Proof.
  intros Htask Hadv Hlog Hbin. unfold download_files.
  erewrite for_each_projects with (step := fun _ _ => tt) (w := fun _ => []).
  - apply flat_map_nothing.
  - intros [] x k _. rewrite res_bind. cbn [add_task res next fst snd].
    by rewrite download_run.
  - intros [] x k _. rewrite effs_bind. cbn [add_task effs res next fst snd].
    rewrite download_run. cbn [effs fst app flat_map].
    rewrite Htask, flat_map_app, write_chunks_only_advances by done.
    simpl. by rewrite Hbin, Hlog.
Qed.

Lemma download_files_paths (output_dir api_url name : pystr)
    (files : list pystr) (n : nat) :
  Forall (fun p => exists rest,
            p = path_join3 output_dir CHALLENGES_FOLDER (py "🔲 " ++ rest))
    (map fst (writes (effs (download_files output_dir api_url name files n)))).
Proof.
  unfold download_files.
  apply (for_each_invariant
           (fun es => Forall _ (map fst (writes es)))).
  - constructor.
  - intros a b Ha Hb. unfold writes.
    rewrite flat_map_app, map_app. by apply Forall_app.
  - intros [] x k _. rewrite effs_bind. cbn [add_task effs res next fst snd].
    rewrite download_run. cbn [effs fst app].
    change (writes (?e :: ?es)) with (writes [e] ++ writes es).
    rewrite writes_app, write_chunks_no_writes.
    cbn [writes flat_map app map fst].
    constructor; [|constructor].
    unfold slugify. rewrite <- app_assoc. by eexists.
Qed.

Lemma as_dict_cases (v : json) :
  (exists d, as_dict v = ret d) \/ as_dict v = raise AttributeError.
Proof. destruct v; simpl; eauto. Qed.

(** A turn of the loop on the record [r]. *)
Lemma process_challenge_run (output_dir : pystr)
    (headers : list (pystr * pystr)) (api_url : pystr) (links : list pystr)
    (c r : challenge) (i : Z) (n : nat) :
  ch_id c = Some i ->
  detail_body api_url headers i <> NotObject ->
  as_dict (challenge_data_of (details_of (detail_body api_url headers i)) c)
  = ret r ->
  let name := get ch_name (py "Unnamed Challenge") c in
  let downloads :=
    download_files output_dir api_url name (get ch_files [] r) (S n) in
  process_challenge output_dir headers api_url links c n
  = ([AddTask (py "Processing Challenge: " ++ name) 100; Advance n 10]
       ++ (if fetch_fails (detail_body api_url headers i)
           then [LogError (py "Failed to retrieve details for challenge ID "
                             ++ str_of_int i)]
           else [])
       ++ [WriteFile (metadata_path output_dir r) (Text (metadata_text r));
           ConsoleLog (py "Saved challenge file: " ++ metadata_path output_dir r);
           Advance n 40]
       ++ effs downloads ++ [Advance n 50],
     next downloads,
     Ok (links ++ findall_urls (get ch_description [] r))).
Proof.
  intros Hid Hobj Hr. cbv zeta.
  unfold process_challenge, getitem_id. rewrite Hid.
  unfold bind at 1. cbn [add_task].
  unfold bind at 1. cbn [update emit].
  unfold bind at 1. cbn [ret].
  unfold bind at 1. rewrite fetch_challenge_details_run.
  rewrite (fetched_object _ Hobj).
  unfold bind at 1. rewrite Hr. cbn [ret].
  unfold bind at 1. unfold save_challenge_metadata at 1.
  unfold bind at 1. cbn [emit ret].
  unfold bind at 1. cbn [emit].
  unfold bind at 1. cbn [update emit].
  unfold bind at 1.
  rewrite (run_eta (download_files _ _ _ _ _)), download_files_res.
  unfold bind at 1. cbn [update emit ret].
  unfold metadata_path, metadata_text, newline.
  cbn [effs next fst snd app]. reflexivity.
Qed.

(** A turn on a detail body that is JSON but not an object: indexing it
    with ["data"] raises [TypeError], which [fetch_challenge_details] does
    not catch; nothing is logged and nothing is written. *)
Lemma process_challenge_not_object (output_dir : pystr)
    (headers : list (pystr * pystr)) (api_url : pystr) (links : list pystr)
    (c : challenge) (i : Z) (n : nat) :
  ch_id c = Some i ->
  detail_body api_url headers i = NotObject ->
  process_challenge output_dir headers api_url links c n
  = ([AddTask (py "Processing Challenge: "
                 ++ get ch_name (py "Unnamed Challenge") c) 100;
      Advance n 10],
     S n, Raise TypeError).
Proof.
  intros Hid Hobj. unfold process_challenge, getitem_id. rewrite Hid.
  unfold bind at 1. cbn [add_task].
  unfold bind at 1. cbn [update emit].
  unfold bind at 1. cbn [ret].
  unfold bind at 1. rewrite fetch_challenge_details_run, Hobj.
  reflexivity.
Qed.

(** A turn on a non-empty array in place of a detail record. *)
Lemma process_challenge_not_dict (output_dir : pystr)
    (headers : list (pystr * pystr)) (api_url : pystr) (links : list pystr)
    (c : challenge) (i : Z) (n : nat) :
  ch_id c = Some i ->
  as_dict (challenge_data_of (details_of (detail_body api_url headers i)) c)
  = raise AttributeError ->
  writes (effs (process_challenge output_dir headers api_url links c n)) = [].
Proof.
  intros Hid Hr.
  destruct (not_object_dec (detail_body api_url headers i)) as [Hobj|Hobj].
  { by rewrite (process_challenge_not_object _ _ _ _ _ _ _ Hid Hobj). }
  unfold process_challenge, getitem_id. rewrite Hid.
  unfold bind at 1. cbn [add_task].
  unfold bind at 1. cbn [update emit].
  unfold bind at 1. cbn [ret].
  unfold bind at 1. rewrite fetch_challenge_details_run.
  rewrite (fetched_object _ Hobj).
  unfold bind at 1. rewrite Hr. cbn [raise effs fst app].
  by destruct (fetch_fails _).
Qed.

(** A turn on a summary without an id. *)
Lemma process_challenge_without_id (output_dir : pystr)
    (headers : list (pystr * pystr)) (api_url : pystr) (links : list pystr)
    (c : challenge) (n : nat) :
  ch_id c = None ->
  process_challenge output_dir headers api_url links c n
  = ([AddTask (py "Processing Challenge: "
                 ++ get ch_name (py "Unnamed Challenge") c) 100;
      Advance n 10],
     S n, Raise (KeyError (py "id"))).
Proof.
  intros Hid. unfold process_challenge, getitem_id. rewrite Hid.
  reflexivity.
Qed.

(** What a turn leaves under a projection that keeps text files or console
    prints only. *)
Lemma process_challenge_projects {B} (phi : effect -> list B)
    (output_dir : pystr) (headers : list (pystr * pystr)) (api_url : pystr)
    (links : list pystr) (c r : challenge) (i : Z) (n : nat) :
  (forall d t, phi (AddTask d t) = []) ->
  (forall t a, phi (Advance t a) = []) ->
  (forall m, phi (ConsoleLog m) = []) ->
  (forall m, phi (LogError m) = []) ->
  (forall p b, phi (WriteFile p (Binary b)) = []) ->
  ch_id c = Some i ->
  detail_body api_url headers i <> NotObject ->
  as_dict (challenge_data_of (details_of (detail_body api_url headers i)) c)
  = ret r ->
  flat_map phi (effs (process_challenge output_dir headers api_url links c n))
  = phi (WriteFile (metadata_path output_dir r) (Text (metadata_text r))).
Proof.
  intros Htask Hadv Hlog Herr Hbin Hid Hobj Hr.
  rewrite (process_challenge_run _ _ _ _ _ _ _ _ Hid Hobj Hr).
  cbn [effs fst].
  rewrite !flat_map_app, download_files_silent by done.
  cbn [flat_map]. rewrite !Htask, !Hadv, !Hlog.
  destruct (fetch_fails _); cbn [flat_map]; rewrite ?Herr;
    cbn [app]; by rewrite !app_nil_r.
Qed.

Lemma process_challenge_paths (output_dir : pystr)
    (headers : list (pystr * pystr)) (api_url : pystr) (links : list pystr)
    (c : challenge) (n : nat) :
  Forall (fun p => exists rest,
            p = path_join3 output_dir CHALLENGES_FOLDER (py "🔲 " ++ rest))
    (map fst
       (writes (effs (process_challenge output_dir headers api_url links c n)))).
Proof.
  destruct (ch_id c) as [i|] eqn:Hid.
  2: { rewrite process_challenge_without_id by done. constructor. }
  destruct (as_dict_cases
              (challenge_data_of (details_of (detail_body api_url headers i)) c))
    as [[r Hr]|Hr].
  2: { rewrite (process_challenge_not_dict _ _ _ _ _ _ _ Hid Hr). constructor. }
  destruct (not_object_dec (detail_body api_url headers i)) as [Hobj|Hobj].
  { rewrite (process_challenge_not_object _ _ _ _ _ _ _ Hid Hobj). constructor. }
  rewrite (process_challenge_run _ _ _ _ _ _ _ _ Hid Hobj Hr).
  cbn [effs fst]. rewrite !writes_app, !map_app.
  repeat apply Forall_app_2.
  - constructor.
  - destruct (fetch_fails _); constructor.
  - cbn [writes flat_map app map fst]. constructor; [|constructor].
    unfold metadata_path, path_join3, slugify. rewrite <- app_assoc.
    by eexists.
  - apply download_files_paths.
  - constructor.
Qed.


(** A summary with an id whose detail body is within the contract is
    processed on [record_used]. *)
Lemma summary_processed (api_url : pystr) (headers : list (pystr * pystr))
    (cs : list challenge) (c : challenge) :
  forallb (fun c => present (ch_id c)) cs = true ->
  forallb (summary_in_contract api_url headers) cs = true ->
  In c cs ->
  exists i,
    ch_id c = Some i
    /\ detail_body api_url headers i <> NotObject
    /\ as_dict (challenge_data_of (details_of (detail_body api_url headers i)) c)
       = ret (record_used api_url headers c).
Proof.
  rewrite !forallb_forall. intros Hids Hcs Hin.
  specialize (Hids c Hin). specialize (Hcs c Hin).
  unfold summary_in_contract in Hcs.
  destruct (ch_id c) as [i|] eqn:Hid; [|done].
  exists i. split; [done|].
  split; [by apply in_contract_object|by apply as_dict_record_used].
Qed.



Lemma download_files_writes (output_dir api_url : pystr) (c : challenge)
    (files : list pystr) (n : nat) :
  writes (effs (download_files output_dir api_url
                  (get ch_name (py "Unnamed Challenge") c) files n))
  = map (fun file_url =>
           (asset_path output_dir c file_url,
            Binary (resp_content (http_get (urljoin api_url file_url) []))))
      files.
Proof.
  unfold download_files, writes.
  erewrite for_each_projects with (step := fun _ _ => tt).
  - apply flat_map_singleton.
  - intros [] x k _. rewrite res_bind. cbn [add_task res next fst snd].
    by rewrite download_run.
  - intros [] x k _. rewrite effs_bind. cbn [add_task effs res next fst snd].
    rewrite download_run. cbn [effs fst app flat_map].
    rewrite flat_map_app.
    fold (writes (effs (write_chunks k
            (resp_iter_content (http_get (urljoin api_url x) []) 1024) (S k)))).
    by rewrite write_chunks_no_writes.
Qed.

Lemma process_challenge_writes (output_dir : pystr)
    (headers : list (pystr * pystr)) (api_url : pystr) (links : list pystr)
    (c : challenge) (i : Z) (n : nat) :
  ch_id c = Some i ->
  detail_in_contract (detail_body api_url headers i) = true ->
  writes (effs (process_challenge output_dir headers api_url links c n))
  = challenge_writes output_dir api_url headers c.
Proof.
  intros Hid Hc.
  rewrite (process_challenge_run _ _ _ _ _ _ _ _ Hid
             (in_contract_object _ Hc)
             (as_dict_record_used _ _ _ _ Hid Hc)).
  cbn [effs fst]. rewrite !writes_app, download_files_writes.
  unfold challenge_writes.
  destruct (fetch_fails _); cbn [writes flat_map app];
    by rewrite app_nil_r.
Qed.


(** An asset is never written over a metadata file: its name has an
    underscore after the slug. *)
Lemma asset_not_metadata (output_dir : pystr) (c r : challenge)
    (file_url : pystr) :
  asset_path output_dir c file_url <> metadata_path output_dir r.
Proof.
  unfold asset_path, metadata_path, path_join3.
  set (slug := slugify (get ch_name (py "Unnamed Challenge") r)).
  set (slug' := slugify (get ch_name (py "Unnamed Challenge") c)).
  rewrite (path_join_relative _ (slug ++ py ".md")) by done.
  rewrite (path_join_relative _ (slug' ++ _)) by done.
  intros Heq. apply app_inv_head in Heq. apply app_inv_head in Heq.
  assert (Hin : In 95 (slug ++ py ".md")).
  { rewrite <- Heq, !in_app_iff. right. left. by left. }
  rewrite in_app_iff in Hin. destruct Hin as [Hin|Hin].
  - by apply slugify_no_underscore in Hin.
  - vm_compute in Hin. intuition discriminate.
Qed.

Lemma challenge_loop_paths (cs : list challenge) (output_dir : pystr)
    (headers : list (pystr * pystr)) (api_url : pystr) (n : nat) :
  Forall (fun p => exists rest,
            p = path_join3 output_dir CHALLENGES_FOLDER (py "🔲 " ++ rest))
    (map fst (writes (effs (challenge_loop cs output_dir headers api_url n)))).
Proof.
  unfold challenge_loop.
  apply (for_each_invariant (fun es => Forall _ (map fst (writes es)))).
  - constructor.
  - intros a b Ha Hb. rewrite writes_app, map_app. by apply Forall_app_2.
  - intros links c k _. apply process_challenge_paths.
Qed.

(** The first summary without an id. *)
Lemma first_without_id (cs : list challenge) :
  existsb (fun c => negb (present (ch_id c))) cs = true ->
  exists l1 x l2,
    cs = l1 ++ x :: l2
    /\ forallb (fun c => present (ch_id c)) l1 = true
    /\ ch_id x = None.
Proof.
  induction cs as [|c cs IH]; simpl; [done|].
  destruct (ch_id c) as [i|] eqn:Hid; simpl.
  - intros Hex. destruct (IH Hex) as (l1 & x & l2 & -> & Hl1 & Hx).
    exists (c :: l1), x, l2. simpl. by rewrite Hid.
  - intros _. by exists [], c, cs.
Qed.

Lemma challenge_loop_raises (cs : list challenge) (output_dir : pystr)
    (headers : list (pystr * pystr)) (api_url : pystr) (n : nat) :
  existsb (fun c => negb (present (ch_id c))) cs = true ->
  forallb (summary_in_contract api_url headers) cs = true ->
  res (challenge_loop cs output_dir headers api_url n)
  = Raise (KeyError (py "id")).
Proof.
  intros Hex Hcs.
  destruct (first_without_id cs Hex) as (l1 & x & l2 & -> & Hl1 & Hx).
  rewrite forallb_app in Hcs. apply andb_prop in Hcs as [Hcs1 _].
  unfold challenge_loop.
  eapply for_each_raises
    with (step := fun links c =>
                    links ++ findall_urls
                      (get ch_description [] (record_used api_url headers c))).
  - intros links c k Hin.
    destruct (summary_processed _ _ _ _ Hl1 Hcs1 Hin) as (i & Hid & Hobj & Hr).
    by rewrite (process_challenge_run _ _ _ _ _ _ _ _ Hid Hobj Hr).
  - intros links k. by rewrite process_challenge_without_id.
Qed.

(** [organize_challenges] on a list, by the outcome of its loop. *)
Lemma organize_challenges_run (cs : list challenge) (output_dir : pystr)
    (headers : list (pystr * pystr)) (api_url : pystr) (update_existing : bool)
    (ctf_name : pystr) (n : nat) :
  organize_challenges (JList cs) output_dir headers api_url update_existing
    ctf_name n
  = let loop := challenge_loop cs output_dir headers api_url 0%nat in
    match res loop with
    | Ok links =>
        (effs loop
           ++ [WriteFile (readme_path output_dir) (Text (readme_text ctf_name cs))]
           ++ match links with [] => [] | _ => [ConsolePrint advisory] end,
         n, Ok tt)
    | Raise e => (effs loop, n, Raise e)
    end.
Proof.
  cbv zeta. unfold organize_challenges, with_progress, iter_challenges.
  unfold bind at 1. cbn [ret].
  unfold bind at 1.
  destruct (challenge_loop cs output_dir headers api_url 0%nat)
    as [[es k] [links|e]]; cbn [res effs fst snd app]; [|done].
  unfold bind at 1, write_readme. cbn [emit].
  unfold readme_path, readme_text, newline.
  rewrite flat_map_concat_map.
  destruct links; cbn [ret emit app]; by rewrite ?app_nil_r.
Qed.


(** [main] on a list body that is not JSON: the run stops with status 1
    before any file is written. *)
Lemma main_aborts_on_malformed_list (args : arguments) :
  list_body (api_url_of args) (headers_of args) = NotJson ->
  outcome_of (main args) = Raise (SystemExit 1)
  /\ exit_status (outcome_of (main args)) = 1%Z
  /\ writes (effects_of (main args)) = []
  /\ In (LogError (py "Failed to retrieve challenges")) (effects_of (main args)).
Proof.
  intros Hlist.
  assert (Hrun : main args 0%nat
                 = ([SetLevel match arg_verbose args with
                              | 1%nat => py "INFO"
                              | 2%nat => py "DEBUG"
                              | _ => py "WARNING"
                              end;
                     MakeDirs (arg_output args);
                     MakeDirs (path_join (arg_output args) CHALLENGES_FOLDER);
                     LogError (py "Failed to retrieve challenges")],
                    0%nat, Raise (SystemExit 1))).
  { unfold main, configure_logging, create_directory_structure.
    fold (headers_of args). fold (api_url_of args).
    unfold fetch_challenges, json_loads.
    unfold list_body in Hlist. rewrite Hlist. reflexivity. }
  unfold outcome_of, effects_of. rewrite Hrun. cbn [res effs fst snd].
  repeat split; [done..|]. do 3 right. by left.
Qed.

End Orchestrator.

(* ===================================================================== *)
(** ** Whole runs *)

Lemma text_writes_app (a b : list effect) :
  text_writes (a ++ b) = text_writes a ++ text_writes b.
Proof. unfold text_writes. apply flat_map_app. Qed.

Lemma prints_app (a b : list effect) : prints (a ++ b) = prints a ++ prints b.
Proof. unfold prints. apply flat_map_app. Qed.



Section Files.
Context `{Library} `{Transport}.


Lemma challenge_writes_paths (output_dir api_url : pystr)
    (headers : list (pystr * pystr)) (c : challenge) (path : pystr) :
  In path (map fst (challenge_writes output_dir api_url headers c)) ->
  path = metadata_path output_dir (record_used api_url headers c)
  \/ exists file_url, path = asset_path output_dir c file_url.
Proof.
  unfold challenge_writes. cbn [map fst]. intros [<-|Hin]; [by left|right].
  rewrite map_map in Hin. apply in_map_iff in Hin as (f & <- & _).
  by exists f.
Qed.


End Files.




(** C10. When a summary of the list lacks [id], [organize_challenges]
    raises [KeyError] at the detail fetch of the first such summary; the
    exception is not caught, so the run ends with a non-zero status and
    the index file is never written. *)
Theorem summary_without_id_aborts_before_index `{Library} `{Transport} :
  forall (cs : list challenge) (output_dir : pystr)
         (headers : list (pystr * pystr)) (api_url : pystr)
         (update_existing : bool) (ctf_name : pystr)
         (fs : gmap pystr contents),
    existsb (fun c => negb (present (ch_id c))) cs = true ->
    forallb (summary_in_contract api_url headers) cs = true ->
    let run :=
      organize_challenges (JList cs) output_dir headers api_url
        update_existing ctf_name 0%nat in
    res run = Raise (KeyError (py "id"))
    /\ exit_status (res run) = 1%Z
    /\ ~ In (readme_path output_dir) (map fst (writes (effs run)))
    /\ replay (effs run) fs !! readme_path output_dir
       = fs !! readme_path output_dir.
Proof.
  intros cs output_dir headers api_url update_existing ctf_name fs Hex Hcs.
  cbv zeta. rewrite organize_challenges_run. cbv zeta.
  rewrite (challenge_loop_raises cs output_dir headers api_url _ Hex Hcs).
  cbn [res effs fst snd exit_status].
  assert (Hno : ~ In (readme_path output_dir)
                  (map fst (writes (effs (challenge_loop cs output_dir headers
                                            api_url 0%nat))))).
  { intros Hin.
    pose proof (challenge_loop_paths cs output_dir headers api_url 0%nat) as Hp.
    rewrite List.Forall_forall in Hp.
    destruct (Hp _ Hin) as [rest Hrest].
    by apply (folder_file_not_readme output_dir rest). }
  split; [done|]. split; [done|]. split; [done|].
  by apply replay_untouched.
Qed.

(** C4. The update flag changes nothing: a run with it set performs the
    same effects, with the same outcome, as a run without it, and so leaves
    the same files with the same contents. *)
Theorem update_flag_has_no_effect `{Library} `{Transport} :
  forall (args : arguments) (fs : gmap pystr contents),
    effects_of (main (set_update true args))
    = effects_of (main (set_update false args))
    /\ outcome_of (main (set_update true args))
       = outcome_of (main (set_update false args))
    /\ writes (effects_of (main (set_update true args)))
       = writes (effects_of (main (set_update false args)))
    /\ replay (effects_of (main (set_update true args))) fs
       = replay (effects_of (main (set_update false args))) fs.
Proof. intros args fs. repeat split; reflexivity. Qed.

(* ===================================================================== *)
(** ** The index and the metadata files *)

(** The link of an index entry never leads to a metadata file: the file
    name of the link has the category and an underscore before the slug,
    the file name written by [save_challenge_metadata] is the slug alone. *)
Lemma index_never_links_metadata `{Library} (output_dir : pystr)
    (summary record : challenge) :
  metadata_path output_dir record <> linked_path output_dir summary.
Proof.
  unfold metadata_path, linked_path, link_target.
  set (slug := slugify (get ch_name (py "Unnamed Challenge") record)).
  set (slug' := slugify (get ch_name (py "Unnamed Challenge") summary)).
  set (category := get ch_category (py "Uncategorized") summary).
  assert (Hslug : startswith (slug ++ py ".md") (py "/") = false) by done.
  rewrite (path_join_relative output_dir CHALLENGES_FOLDER) by done.
  rewrite (path_join_relative _ (slug ++ py ".md")) by done.
  rewrite (path_join_relative output_dir (CHALLENGES_FOLDER ++ _)) by done.
  set (sep := if _ || endswith output_dir _ then _ else _).
  assert (Hsep : (match output_dir ++ sep ++ CHALLENGES_FOLDER with
                  | [] => true | _ => false end
                  || endswith (output_dir ++ sep ++ CHALLENGES_FOLDER) (py "/"))
                 = false).
  { unfold endswith. rewrite !rev_app_distr.
    destruct output_dir; cbn [app rev]; [|done]. subst sep. done. }
  rewrite Hsep, <- !app_assoc.
  intros Heq. do 4 apply app_inv_head in Heq.
  assert (Hin : In 95 (slug ++ py ".md")).
  { rewrite Heq, !in_app_iff. right. left. by left. }
  rewrite in_app_iff in Hin. destruct Hin as [Hin|Hin].
  - by apply slugify_no_underscore in Hin.
  - vm_compute in Hin. intuition discriminate.
Qed.

(* ===================================================================== *)
(** ** The runs of the examples *)

Section Examples.
#[local] Existing Instance example_library.

(** C1. On the example platform the metadata file of the first challenge is
    written as [<slug>.md], without the category, while its index entry
    links to [<category>_<slug>.md], a file that the run never writes. *)
Theorem index_link_misses_metadata_file :
  let es := effects_of (@main _ example_platform example_args) in
  let files := replay es ∅ in
  map fst (text_writes es)
  = [py "out/📂 Challenges/🔲 sql-injection-101.md";
     py "out/📂 Challenges/🔲 crack-me.md";
     py "out/📂 Challenges/🔲 baby-re.md";
     py "out/README.md"]
  /\ link_target sqli = py "📂 Challenges/web_🔲 sql-injection-101.md"
  /\ linked_path (py "out") sqli
     = py "out/📂 Challenges/web_🔲 sql-injection-101.md"
  /\ files !! linked_path (py "out") sqli = None
  /\ files !! py "out/📂 Challenges/🔲 sql-injection-101.md"
     = Some (Text (metadata_text sqli_detail)).
Proof. vm_compute. repeat split; reflexivity. Qed.

(** C2. On a platform whose list endpoint serves an envelope without
    [data], [fetch_challenges] returns the empty list without logging an
    error, and the run writes an index without entries and exits 0. *)
Theorem missing_data_is_an_empty_list :
  let headers := headers_of example_args in
  let api_url := api_url_of example_args in
  @list_body platform_without_data api_url headers = Envelope None
  /\ @fetch_challenges platform_without_data api_url headers 0%nat
     = ([], 0%nat, Ok (JList []))
  /\ exit_status (outcome_of (@main _ platform_without_data example_args))
     = 0%Z
  /\ writes (effects_of (@main _ platform_without_data example_args))
     = [(py "out/README.md",
         Text (py "# ExampleCTF" ++ [10; 10] ++ py "## Challenges" ++ [10; 10]))].
Proof. vm_compute. repeat split; reflexivity. Qed.

(** The attached file of the example is served without a content-length
    header and arrives whole. *)
Example download_without_content_length :
  resp_content_length
    (@http_get example_platform (py "http://ctf.example/files/abc/dump.sql") [])
  = None
  /\ @download_challenge_assets _ example_platform
       (py "http://ctf.example/files/abc/dump.sql") (py "out/dump.sql") 0%nat 1%nat
     = ([Advance 0 7; WriteFile (py "out/dump.sql") (Binary dump_sql);
         ConsoleLog (py "Downloaded dump.sql to out/dump.sql")],
        1%nat, Ok tt).
Proof. vm_compute. split; reflexivity. Qed.





Lemma summary_without_id_witness :
  res (@organize_challenges _ example_platform
         (JList [sqli; nameless; babyre]) (py "out")
         (headers_of example_args) (api_url_of example_args) false
         (py "ExampleCTF") 0%nat)
  = Raise (KeyError (py "id")).
Proof.
  destruct (@summary_without_id_aborts_before_index _ example_platform
              [sqli; nameless; babyre] (py "out") (headers_of example_args)
              (api_url_of example_args) false (py "ExampleCTF") ∅)
    as (Hres & _).
  - vm_compute. reflexivity.
  - vm_compute. reflexivity.
  - exact Hres.
Defined.

End Examples.

(* ===================================================================== *)
(** ** More on the slug *)

Lemma drop_while_all (p : N -> bool) (s : pystr) :
  forallb p s = true -> drop_while p s = [].
Proof.
  induction s as [|c r IH]; simpl; [done|].
  destruct (p c); simpl; [exact IH|done].
Qed.

Lemma startswith_char (c x : N) (r : pystr) :
  startswith (c :: r) [x] = (c =? x).
Proof. cbn [startswith]. destruct r; apply andb_true_r. Qed.

Lemma drop_while_head (s : pystr) :
  startswith (drop_while is_dash s) (py "-") = false.
Proof.
  change (py "-") with [45].
  induction s as [|c r IH]; [done|].
  cbn [drop_while]. destruct (is_dash c) eqn:Hc; [exact IH|].
  by rewrite startswith_char.
Qed.

Lemma trim_trailing_head (s : pystr) :
  startswith s (py "-") = false ->
  startswith (trim_trailing s) (py "-") = false.
Proof.
  change (py "-") with [45].
  destruct s as [|c r]; [done|].
  rewrite startswith_char. intros Hc. cbn [trim_trailing].
  destruct (trim_trailing r).
  - unfold is_dash, dash. rewrite Hc. by rewrite startswith_char.
  - by rewrite startswith_char.
Qed.

Lemma re_sub_spaces_chars (s : pystr) (x : N) :
  In x (re_sub_spaces s) -> x = dash \/ In x s.
Proof.
  rewrite (proj1 (re_sub_spaces_collapse s)).
  generalize false. induction s as [|c r IH]; intros b; simpl; [tauto|].
  destruct (is_space c).
  - destruct b.
    + intros Hin. destruct (IH _ Hin); tauto.
    + intros [<-|Hin]; [tauto|]. destruct (IH _ Hin); tauto.
  - intros [<-|Hin]; [tauto|]. destruct (IH _ Hin); tauto.
Qed.

Lemma strip_dashes_subset (s : pystr) (x : N) :
  In x (strip_dashes s) -> In x s.
Proof.
  unfold strip_dashes. rewrite <- in_rev. intros Hin.
  apply drop_while_subset in Hin. rewrite <- in_rev in Hin.
  by apply drop_while_subset in Hin.
Qed.

(** X1. After the marker a slug has only the characters [[a-z0-9-]], and
    it neither begins nor ends with a dash. *)
Theorem slug_alphabet `{Library} :
  forall text : pystr,
    exists body,
      slugify text = py "🔲 " ++ body
      /\ forallb is_slug_char body = true
      /\ startswith body (py "-") = false
      /\ endswith body (py "-") = false.
Proof.
  intros text. unfold slugify.
  set (s := re_sub_nonslug (re_sub_spaces (str_lower text))).
  exists (strip_dashes s). split; [done|]. split; [|split].
  - apply forallb_forall. intros x Hin.
    apply strip_dashes_subset in Hin.
    unfold s, re_sub_nonslug in Hin. by apply filter_In in Hin as [_ Hin].
  - rewrite strip_dashes_trim. apply trim_trailing_head.
    rewrite <- drop_while_trim_leading. apply drop_while_head.
  - unfold endswith, strip_dashes. rewrite rev_involutive.
    apply drop_while_head.
Qed.

Lemma ascii_lower_not_alnum (c : N) :
  is_alnum c = false -> is_alnum (ascii_lower c) = false.
Proof.
  unfold ascii_lower. intros Hc.
  destruct ((65 <=? c) && (c <=? 90)) eqn:Hup; [|done].
  unfold is_alnum in Hc. rewrite Hup, orb_true_r in Hc. done.
Qed.

Lemma slug_char_not_alnum (c : N) :
  is_slug_char c = true -> is_alnum c = false -> is_dash c = true.
Proof.
  unfold is_slug_char, is_alnum, is_dash, dash.
  destruct ((97 <=? c) && (c <=? 122)); [by rewrite orb_true_r|].
  by destruct ((48 <=? c) && (c <=? 57)).
Qed.

(** X2. A name of ASCII characters without a letter or a digit has the
    marker alone as its slug. *)
Theorem slug_of_name_without_alphanumerics `{Library} :
  forall text : pystr,
    forallb is_ascii_cp text = true ->
    forallb (fun c => negb (is_alnum c)) text = true ->
    slugify text = py "🔲 ".
Proof.
  intros text Hascii Hnone. unfold slugify, str_lower. rewrite Hascii.
  rewrite <- (app_nil_r (py "🔲 ")) at 2. f_equal.
  unfold strip_dashes. rewrite drop_while_all; [done|].
  apply forallb_forall. intros x Hin.
  rewrite <- in_rev in Hin. apply drop_while_subset in Hin.
  unfold re_sub_nonslug in Hin. apply filter_In in Hin as [Hin Hslug].
  apply slug_char_not_alnum; [done|].
  apply re_sub_spaces_chars in Hin as [->|Hin]; [done|].
  apply in_map_iff in Hin as (c & <- & Hc).
  apply ascii_lower_not_alnum.
  rewrite forallb_forall in Hnone. specialize (Hnone c Hc).
  by destruct (is_alnum c).
Qed.

Lemma ascii_lower_idempotent (c : N) :
  ascii_lower (ascii_lower c) = ascii_lower c.
Proof.
  unfold ascii_lower.
  destruct ((65 <=? c) && (c <=? 90)) eqn:Hup; [|by rewrite Hup].
  apply andb_prop in Hup as [H1 H2].
  apply N.leb_le in H1, H2.
  destruct ((65 <=? c + 32) && (c + 32 <=? 90)) eqn:Hup'; [|done].
  apply andb_prop in Hup' as [_ H3]. apply N.leb_le in H3. lia.
Qed.

Lemma ascii_lower_ascii (c : N) :
  is_ascii_cp c = true -> is_ascii_cp (ascii_lower c) = true.
Proof.
  unfold ascii_lower, is_ascii_cp. intros Hc.
  destruct ((65 <=? c) && (c <=? 90)) eqn:Hup; [|done].
  apply andb_prop in Hup as [_ H2]. apply N.leb_le in H2.
  apply N.ltb_lt. lia.
Qed.

(** X3. The slug of an ASCII name does not depend on the case of its
    letters: the name and its lowercase form have the same slug, and hence
    the same metadata path. *)
Theorem slug_ignores_ascii_case `{Library} :
  forall (text : pystr) (output_dir : pystr) (c c' : challenge),
    forallb is_ascii_cp text = true ->
    ch_name c = Some text ->
    ch_name c' = Some (map ascii_lower text) ->
    slugify (map ascii_lower text) = slugify text
    /\ metadata_path output_dir c' = metadata_path output_dir c.
Proof.
  intros text output_dir c c' Hascii Hc Hc'.
  assert (Hslug : slugify (map ascii_lower text) = slugify text).
  { unfold slugify, str_lower. rewrite Hascii.
    assert (Hlow : forallb is_ascii_cp (map ascii_lower text) = true).
    { rewrite forallb_forall in *. intros x Hin.
      apply in_map_iff in Hin as (y & <- & Hy).
      apply ascii_lower_ascii. by apply Hascii. }
    rewrite Hlow, map_map.
    do 4 f_equal. apply map_ext. intros. apply ascii_lower_idempotent. }
  split; [done|].
  unfold metadata_path, get. by rewrite Hc, Hc', Hslug.
Qed.

(* ===================================================================== *)
(** ** The link scan *)

Lemma span_nonspace_app (s : pystr) :
  fst (span_nonspace s) ++ snd (span_nonspace s) = s.
Proof.
  induction s as [|c r IH]; [done|]. simpl.
  destruct (is_space c); [done|].
  destruct (span_nonspace r). simpl in *. by rewrite IH.
Qed.

Lemma span_nonspace_free (s : pystr) :
  forallb (fun c => negb (is_space c)) (fst (span_nonspace s)) = true.
Proof.
  induction s as [|c r IH]; [done|]. simpl.
  destruct (is_space c) eqn:Hc; [done|].
  destruct (span_nonspace r). simpl in *. by rewrite Hc.
Qed.

Ltac split_positive p n :=
  lazymatch n with
  | O => idtac
  | S ?m => destruct p as [p|p|]; [split_positive p m|split_positive p m|]
  end.

(** Where the pattern matches, the text begins with one of the two schemes
    and goes on with a character that is not whitespace. *)
Lemma url_at_scheme (s : pystr) :
  url_at s = true ->
  exists c rest,
    negb (is_space c) = true
    /\ (s = py "http://" ++ c :: rest \/ s = py "https://" ++ c :: rest).
Proof.
  change (py "http://") with [104; 116; 116; 112; 58; 47; 47].
  change (py "https://") with [104; 116; 116; 112; 115; 58; 47; 47].
  intros H.
  destruct s as [|c1 s]; [done|].
  destruct c1 as [|c1]; [done|]. split_positive c1 7%nat; try done.
  destruct s as [|c2 s]; [done|].
  destruct c2 as [|c2]; [done|]. split_positive c2 7%nat; try done.
  destruct s as [|c3 s]; [done|].
  destruct c3 as [|c3]; [done|]. split_positive c3 7%nat; try done.
  destruct s as [|c4 s]; [done|].
  destruct c4 as [|c4]; [done|]. split_positive c4 7%nat; try done.
  destruct s as [|c5 s]; [done|].
  destruct c5 as [|c5]; [done|]. split_positive c5 7%nat; try done.
  - destruct s as [|c6 s]; [done|].
    destruct c6 as [|c6]; [done|]. split_positive c6 7%nat; try done.
    destruct s as [|c7 s]; [done|].
    destruct c7 as [|c7]; [done|]. split_positive c7 7%nat; try done.
    destruct s as [|c8 s]; [done|].
    destruct c8 as [|c8]; [done|]. split_positive c8 7%nat; try done.
    destruct s as [|c9 s]; [done|].
    exists c9, s. split; [exact H|]. by right.
  - destruct s as [|c6 s]; [done|].
    destruct c6 as [|c6]; [done|]. split_positive c6 7%nat; try done.
    destruct s as [|c7 s]; [done|].
    destruct c7 as [|c7]; [done|]. split_positive c7 7%nat; try done.
    destruct s as [|c8 s]; [done|].
    exists c8, s. split; [exact H|]. by left.
Qed.

Lemma url_at_head_not_space (c : N) (r : pystr) :
  url_at (c :: r) = true -> is_space c = false.
Proof.
  intros H. apply url_at_scheme in H as (x & rest & _ & [Heq|Heq]);
    change (py "http://") with [104; 116; 116; 112; 58; 47; 47] in Heq;
    change (py "https://") with [104; 116; 116; 112; 115; 58; 47; 47] in Heq;
    by injection Heq as ->.
Qed.

Lemma span_nonspace_prefix (pre s : pystr) :
  forallb (fun c => negb (is_space c)) pre = true ->
  fst (span_nonspace (pre ++ s)) = pre ++ fst (span_nonspace s).
Proof.
  induction pre as [|c pre IH]; [done|]. cbn [forallb app span_nonspace].
  intros Hpre. apply andb_prop in Hpre as [Hc Hpre].
  destruct (is_space c); [done|].
  specialize (IH Hpre). destruct (span_nonspace (pre ++ s)).
  cbn [fst] in *. by rewrite IH.
Qed.

Lemma startswith_app (pre s : pystr) : startswith (pre ++ s) pre = true.
Proof.
  induction pre as [|c pre IH]; [by destruct s|].
  cbn [app startswith]. by rewrite N.eqb_refl, IH.
Qed.

(** A match begins with the scheme that [url_at] saw. *)
Lemma url_match_scheme (c : N) (r : pystr) :
  url_at (c :: r) = true ->
  (startswith (c :: fst (span_nonspace r)) (py "http://")
   || startswith (c :: fst (span_nonspace r)) (py "https://")) = true.
Proof.
  intros H. apply url_at_scheme in H as (x & rest & _ & [Heq|Heq]).
  - change (py "http://") with ([104] ++ [116; 116; 112; 58; 47; 47]) in Heq.
    assert (c = 104) as -> by (by injection Heq).
    assert (r = [116; 116; 112; 58; 47; 47] ++ x :: rest) as ->
      by (by injection Heq).
    rewrite span_nonspace_prefix by done.
    change (104 :: [116; 116; 112; 58; 47; 47] ++ ?y)
      with (py "http://" ++ y).
    by rewrite startswith_app.
  - change (py "https://")
      with ([104] ++ [116; 116; 112; 115; 58; 47; 47]) in Heq.
    assert (c = 104) as -> by (by injection Heq).
    assert (r = [116; 116; 112; 115; 58; 47; 47] ++ x :: rest) as ->
      by (by injection Heq).
    rewrite span_nonspace_prefix by done.
    change (104 :: [116; 116; 112; 115; 58; 47; 47] ++ ?y)
      with (py "https://" ++ y).
    by rewrite startswith_app, orb_true_r.
Qed.

(** X4. Every link that the scan of a description yields begins with
    [http://] or [https://], has no whitespace in it, and is a contiguous
    piece of the description; the links do not overlap, so together they
    are no longer than the description. *)
Theorem found_urls_are_pieces_of_the_text :
  forall text : pystr,
    Forall (fun url =>
              (startswith url (py "http://") || startswith url (py "https://"))
              = true
              /\ forallb (fun c => negb (is_space c)) url = true
              /\ exists before after, text = before ++ url ++ after)
      (findall_urls text)
    /\ (list_sum (map length (findall_urls text)) <= length text)%nat.
Proof.
  intros text. funelim (findall_urls text); simp findall_urls.
  { split; [constructor|done]. }
  destruct (url_at (c :: r)) eqn:Hurl.
  - destruct H as [Hall Hlen]. clear H0.
    pose proof (span_nonspace_app r) as Happ.
    pose proof (span_nonspace_free r) as Hfree.
    pose proof (url_match_scheme _ _ Hurl) as Hscheme.
    set (url := fst (span_nonspace r)) in *.
    set (rest := snd (span_nonspace r)) in *.
    clearbody url rest. subst r.
    split.
    + constructor.
      * split; [done|]. split.
        -- cbn [forallb]. rewrite (url_at_head_not_space _ _ Hurl). exact Hfree.
        -- by exists [], rest.
      * eapply Forall_impl; [exact Hall|].
        intros m (Hm1 & Hm2 & pre & post & Hm3).
        split; [done|]. split; [done|].
        exists (c :: url ++ pre), post.
        rewrite Hm3. cbn [app]. by rewrite <- !app_assoc.
    + cbn [map length]. rewrite length_app.
      change (list_sum (?n :: ?l)) with (n + list_sum l)%nat. lia.
  - destruct H0 as [Hall Hlen]. clear H. split.
    + eapply Forall_impl; [exact Hall|].
      intros m (Hm1 & Hm2 & pre & post & Hm3).
      split; [done|]. split; [done|].
      exists (c :: pre), post. by rewrite Hm3.
    + cbn [length]. lia.
Qed.

(* ===================================================================== *)
(** ** Failures of the two fetches *)


Lemma made_dirs_app (a b : list effect) :
  made_dirs (a ++ b) = made_dirs a ++ made_dirs b.
Proof. unfold made_dirs. apply flat_map_app. Qed.

(** X6. When the body of the challenge list is not JSON, the run logs the
    failure and exits with status 1: it has already made the output
    directory and the challenges folder, but it writes no file and prints
    nothing. *)
Theorem malformed_list_stops_after_making_directories
    `{Library} `{Transport} :
  forall args : arguments,
    list_body (api_url_of args) (headers_of args) = NotJson ->
    outcome_of (main args) = Raise (SystemExit 1)
    /\ exit_status (outcome_of (main args)) = 1%Z
    /\ made_dirs (effects_of (main args))
       = [arg_output args; path_join (arg_output args) CHALLENGES_FOLDER]
    /\ errors (effects_of (main args)) = [py "Failed to retrieve challenges"]
    /\ writes (effects_of (main args)) = []
    /\ prints (effects_of (main args)) = [].
Proof.
  intros args Hlist.
  assert (Hrun : main args 0%nat
                 = ([SetLevel match arg_verbose args with
                              | 1%nat => py "INFO"
                              | 2%nat => py "DEBUG"
                              | _ => py "WARNING"
                              end;
                     MakeDirs (arg_output args);
                     MakeDirs (path_join (arg_output args) CHALLENGES_FOLDER);
                     LogError (py "Failed to retrieve challenges")],
                    0%nat, Raise (SystemExit 1))).
  { unfold main, configure_logging, create_directory_structure.
    fold (headers_of args). fold (api_url_of args).
    unfold fetch_challenges, json_loads.
    unfold list_body in Hlist. rewrite Hlist. reflexivity. }
  unfold outcome_of, effects_of. rewrite Hrun. cbn [res effs fst snd].
  repeat split; done.
Qed.

(** X7. A challenge list whose envelope has [data: null] is not taken for
    an empty list: [.get] returns the [None], the loop over it raises
    [TypeError], which nothing catches, and the run ends with status 1
    without an error log, a file or a print. *)
Theorem null_list_is_an_uncaught_type_error `{Library} `{Transport} :
  forall args : arguments,
    list_body (api_url_of args) (headers_of args) = Envelope (Some JNull) ->
    outcome_of (main args) = Raise TypeError
    /\ exit_status (outcome_of (main args)) = 1%Z
    /\ errors (effects_of (main args)) = []
    /\ writes (effects_of (main args)) = []
    /\ prints (effects_of (main args)) = [].
Proof.
  intros args Hlist.
  assert (Hrun : main args 0%nat
                 = ([SetLevel match arg_verbose args with
                              | 1%nat => py "INFO"
                              | 2%nat => py "DEBUG"
                              | _ => py "WARNING"
                              end;
                     MakeDirs (arg_output args);
                     MakeDirs (path_join (arg_output args) CHALLENGES_FOLDER)],
                    0%nat, Raise TypeError)).
  { unfold main, configure_logging, create_directory_structure.
    fold (headers_of args). fold (api_url_of args).
    unfold fetch_challenges, json_loads.
    unfold list_body in Hlist. rewrite Hlist. reflexivity. }
  unfold outcome_of, effects_of. rewrite Hrun. cbn [res effs fst snd].
  repeat split; done.
Qed.


(* ===================================================================== *)
(** ** Every run, whatever the platform serves *)

Section AnyRun.
Context `{Library} `{Transport}.

(** A turn that stops at [.get] on a non-empty array. *)
Lemma process_challenge_not_dict_run (output_dir : pystr)
    (headers : list (pystr * pystr)) (api_url : pystr) (links : list pystr)
    (c : challenge) (i : Z) (n : nat) :
  ch_id c = Some i ->
  as_dict (challenge_data_of (details_of (detail_body api_url headers i)) c)
  = raise AttributeError ->
  process_challenge output_dir headers api_url links c n
  = ([AddTask (py "Processing Challenge: "
                 ++ get ch_name (py "Unnamed Challenge") c) 100;
      Advance n 10]
       ++ (if fetch_fails (detail_body api_url headers i)
           then [LogError (py "Failed to retrieve details for challenge ID "
                             ++ str_of_int i)]
           else []),
     S n, Raise AttributeError).
Proof.
  intros Hid Hr.
  destruct (not_object_dec (detail_body api_url headers i)) as [Hobj|Hobj].
  { rewrite Hobj in Hr. apply (f_equal (fun m => res (m 0%nat))) in Hr.
    discriminate Hr. }
  unfold process_challenge, getitem_id. rewrite Hid.
  unfold bind at 1. cbn [add_task].
  unfold bind at 1. cbn [update emit].
  unfold bind at 1. cbn [ret].
  unfold bind at 1. rewrite fetch_challenge_details_run.
  rewrite (fetched_object _ Hobj).
  unfold bind at 1. rewrite Hr. cbn [raise app].
  by destruct (fetch_fails _).
Qed.

(** A turn leaves nothing under a projection that keeps neither tasks,
    logs nor files. *)
Lemma process_challenge_quiet {B} (phi : effect -> list B)
    (output_dir : pystr) (headers : list (pystr * pystr)) (api_url : pystr)
    (links : list pystr) (c : challenge) (n : nat) :
  (forall d t, phi (AddTask d t) = []) ->
  (forall t a, phi (Advance t a) = []) ->
  (forall m, phi (ConsoleLog m) = []) ->
  (forall m, phi (LogError m) = []) ->
  (forall p d, phi (WriteFile p d) = []) ->
  flat_map phi (effs (process_challenge output_dir headers api_url links c n))
  = [].
Proof.
  intros Htask Hadv Hlog Herr Hfile.
  destruct (ch_id c) as [i|] eqn:Hid.
  2: { rewrite process_challenge_without_id by done.
       cbn [effs fst flat_map]. by rewrite Htask, Hadv. }
  destruct (as_dict_cases
              (challenge_data_of (details_of (detail_body api_url headers i)) c))
    as [[r Hr]|Hr].
  - destruct (not_object_dec (detail_body api_url headers i)) as [Hobj|Hobj].
    { rewrite (process_challenge_not_object _ _ _ _ _ _ _ Hid Hobj).
      cbn [effs fst flat_map]. by rewrite Htask, Hadv. }
    rewrite (process_challenge_projects phi _ _ _ _ _ r i) by done.
    apply Hfile.
  - rewrite (process_challenge_not_dict_run _ _ _ _ _ _ _ Hid Hr).
    cbn [effs fst]. rewrite flat_map_app. cbn [flat_map].
    rewrite Htask, Hadv.
    destruct (fetch_fails _); cbn [flat_map]; by rewrite ?Herr.
Qed.

Lemma challenge_loop_quiet {B} (phi : effect -> list B)
    (cs : list challenge) (output_dir : pystr)
    (headers : list (pystr * pystr)) (api_url : pystr) (n : nat) :
  (forall d t, phi (AddTask d t) = []) ->
  (forall t a, phi (Advance t a) = []) ->
  (forall m, phi (ConsoleLog m) = []) ->
  (forall m, phi (LogError m) = []) ->
  (forall p d, phi (WriteFile p d) = []) ->
  flat_map phi (effs (challenge_loop cs output_dir headers api_url n)) = [].
Proof.
  intros Htask Hadv Hlog Herr Hfile. unfold challenge_loop.
  apply (for_each_invariant (fun es => flat_map phi es = [])).
  - done.
  - intros a b Ha Hb. by rewrite flat_map_app, Ha, Hb.
  - intros links c k _. by apply process_challenge_quiet.
Qed.

(** What [organize_challenges] iterates over, when it can iterate. *)
Lemma organize_challenges_any (challenges : json) (output_dir : pystr)
    (headers : list (pystr * pystr)) (api_url : pystr) (update_existing : bool)
    (ctf_name : pystr) (n : nat) :
  (exists cs,
      organize_challenges challenges output_dir headers api_url
        update_existing ctf_name n
      = organize_challenges (JList cs) output_dir headers api_url
          update_existing ctf_name n)
  \/ (exists e,
         organize_challenges challenges output_dir headers api_url
           update_existing ctf_name n
         = ([], n, Raise e)).
Proof.
  destruct challenges as [|cs|c].
  - right. by exists TypeError.
  - left. by exists cs.
  - destruct (dict_nonempty c) eqn:Hc.
    + right. exists AttributeError.
      unfold organize_challenges, with_progress, iter_challenges.
      rewrite Hc. reflexivity.
    + left. exists [].
      unfold organize_challenges, with_progress, iter_challenges.
      rewrite Hc. reflexivity.
Qed.

(** [main] on an envelope, whatever its [data]. *)
Lemma main_run_envelope (args : arguments) (data : option json) (n : nat) :
  list_body (api_url_of args) (headers_of args) = Envelope data ->
  main args n
  = let organize :=
      organize_challenges (default (JList []) data) (arg_output args)
        (headers_of args) (api_url_of args) (arg_update args)
        (arg_name args) n in
    ([SetLevel match arg_verbose args with
               | 1%nat => py "INFO"
               | 2%nat => py "DEBUG"
               | _ => py "WARNING"
               end;
      MakeDirs (arg_output args);
      MakeDirs (path_join (arg_output args) CHALLENGES_FOLDER)]
       ++ effs organize
       ++ match res organize with
          | Ok _ => [ConsolePrint completed]
          | Raise _ => []
          end,
     next organize, res organize).
Proof.
  intros Hlist. cbv zeta.
  unfold main, configure_logging, create_directory_structure.
  fold (headers_of args). fold (api_url_of args).
  unfold fetch_challenges, json_loads.
  unfold list_body in Hlist. rewrite Hlist.
  unfold bind, try_except.
  destruct data as [d|]; cbn [ret emit app get_data default];
    destruct (organize_challenges _ _ _ _ _ _ n) as [[es k] [[]|e]];
    cbn [res effs next fst snd app emit]; unfold completed;
    rewrite ?app_nil_r; reflexivity.
Qed.

(** [main] on a list body that is JSON but not an object: [.get] raises
    [AttributeError], which the handler of [fetch_challenges] does not
    name. *)
Lemma main_run_not_object (args : arguments) (n : nat) :
  list_body (api_url_of args) (headers_of args) = NotObject ->
  main args n
  = ([SetLevel match arg_verbose args with
               | 1%nat => py "INFO"
               | 2%nat => py "DEBUG"
               | _ => py "WARNING"
               end;
      MakeDirs (arg_output args);
      MakeDirs (path_join (arg_output args) CHALLENGES_FOLDER)],
     n, Raise AttributeError).
Proof.
  intros Hlist.
  unfold main, configure_logging, create_directory_structure.
  fold (headers_of args). fold (api_url_of args).
  unfold fetch_challenges, json_loads.
  unfold list_body in Hlist. rewrite Hlist. reflexivity.
Qed.

Lemma main_run_not_json (args : arguments) (n : nat) :
  list_body (api_url_of args) (headers_of args) = NotJson ->
  main args n
  = ([SetLevel match arg_verbose args with
               | 1%nat => py "INFO"
               | 2%nat => py "DEBUG"
               | _ => py "WARNING"
               end;
      MakeDirs (arg_output args);
      MakeDirs (path_join (arg_output args) CHALLENGES_FOLDER);
      LogError (py "Failed to retrieve challenges")],
     n, Raise (SystemExit 1)).
Proof.
  intros Hlist.
  unfold main, configure_logging, create_directory_structure.
  fold (headers_of args). fold (api_url_of args).
  unfold fetch_challenges, json_loads.
  unfold list_body in Hlist. rewrite Hlist. reflexivity.
Qed.

(** The prints of [organize_challenges]: none when it raises, at most the
    advisory when it returns. *)
Lemma organize_challenges_prints (challenges : json) (output_dir : pystr)
    (headers : list (pystr * pystr)) (api_url : pystr) (update_existing : bool)
    (ctf_name : pystr) (n : nat) :
  let run :=
    organize_challenges challenges output_dir headers api_url
      update_existing ctf_name n in
  match res run with
  | Ok _ => prints (effs run) = [] \/ prints (effs run) = [advisory]
  | Raise _ => prints (effs run) = []
  end.
Proof.
  cbv zeta.
  destruct (organize_challenges_any challenges output_dir headers api_url
              update_existing ctf_name n) as [[cs ->]|[e ->]]; [|done].
  rewrite organize_challenges_run. cbv zeta.
  pose proof (challenge_loop_quiet
                (fun e => match e with ConsolePrint m => [m] | _ => [] end)
                cs output_dir headers api_url 0%nat) as Hquiet.
  fold (prints (effs (challenge_loop cs output_dir headers api_url 0%nat)))
    in Hquiet.
  destruct (res (challenge_loop cs output_dir headers api_url 0%nat))
    as [links|e]; cbn [res effs fst snd].
  - rewrite !prints_app, Hquiet by done.
    destruct links; [left|right]; reflexivity.
  - by apply Hquiet.
Qed.

End AnyRun.

(** X9. Whatever the platform serves, a run that ends with an exception
    prints nothing on the console, and a run that returns prints the
    completion line last, preceded by the advisory or by nothing. *)
Theorem completion_is_printed_exactly_on_success `{Library} `{Transport} :
  forall args : arguments,
    match outcome_of (main args) with
    | Ok _ =>
        prints (effects_of (main args)) = [completed]
        \/ prints (effects_of (main args)) = [advisory; completed]
    | Raise _ => prints (effects_of (main args)) = []
    end.
Proof.
  intros args. unfold outcome_of, effects_of.
  destruct (list_body (api_url_of args) (headers_of args)) as [|data|]
    eqn:Hlist.
  { by rewrite (main_run_not_json args _ Hlist). }
  2: { by rewrite (main_run_not_object args _ Hlist). }
  rewrite (main_run_envelope args data _ Hlist). cbv zeta.
  cbn [res effs fst snd].
  pose proof (organize_challenges_prints (default (JList []) data)
                (arg_output args) (headers_of args) (api_url_of args)
                (arg_update args) (arg_name args) 0%nat) as Hprints.
  cbv zeta in Hprints.
  destruct (res (organize_challenges _ _ _ _ _ _ _)).
  - rewrite !prints_app. destruct Hprints as [-> | ->]; [left|right]; done.
  - rewrite !prints_app, Hprints. done.
Qed.

(* ===================================================================== *)
(** ** Where a run writes *)

Lemma last_segment_from_no_slash (acc s : pystr) :
  ~ In 47 acc -> ~ In 47 (last_segment_from acc s).
Proof.
  revert acc. induction s as [|c r IH]; intros acc Hacc; [done|].
  cbn [last_segment_from]. destruct (c =? 47) eqn:Hc.
  - apply IH. intros [].
  - apply IH. rewrite in_app_iff. intros [Hin|[Heq|[]]]; [done|].
    subst c. by rewrite N.eqb_refl in Hc.
Qed.

Lemma last_segment_no_slash (s : pystr) : ~ In 47 (last_segment s).
Proof. apply last_segment_from_no_slash. intros []. Qed.

Lemma slugify_no_slash `{Library} (text : pystr) : ~ In 47 (slugify text).
Proof.
  unfold slugify. rewrite in_app_iff. intros [Hin|Hin].
  - vm_compute in Hin. intuition discriminate.
  - apply strip_dashes_subset in Hin.
    unfold re_sub_nonslug in Hin. apply filter_In in Hin as [_ Hin].
    vm_compute in Hin. discriminate.
Qed.

Lemma startswith_no_slash (name : pystr) :
  ~ In 47 name -> startswith name (py "/") = false.
Proof.
  change (py "/") with [47]. destruct name as [|c r]; [done|].
  rewrite startswith_char. intros Hin.
  destruct (c =? 47) eqn:Hc; [|done].
  apply N.eqb_eq in Hc. subst c. exfalso. apply Hin. by left.
Qed.

(** Joining a name to the challenges folder puts one separator between
    them. *)
Lemma challenges_folder_join (output_dir name : pystr) :
  startswith name (py "/") = false ->
  path_join (path_join output_dir CHALLENGES_FOLDER) name
  = path_join output_dir CHALLENGES_FOLDER ++ py "/" ++ name.
Proof.
  intros Hname. rewrite (path_join_relative _ name) by done.
  rewrite (path_join_relative output_dir CHALLENGES_FOLDER) by done.
  set (sep := if _ || endswith output_dir _ then _ else _).
  assert (Hsep : (match output_dir ++ sep ++ CHALLENGES_FOLDER with
                  | [] => true | _ => false end
                  || endswith (output_dir ++ sep ++ CHALLENGES_FOLDER) (py "/"))
                 = false).
  { unfold endswith. rewrite !rev_app_distr.
    destruct output_dir; cbn [app rev]; [|done]. subst sep. done. }
  by rewrite Hsep.
Qed.

Section Confinement.
Context `{Library} `{Transport}.

Lemma metadata_path_in_folder (output_dir : pystr) (r : challenge) :
  in_challenges_folder output_dir (metadata_path output_dir r).
Proof.
  exists (slugify (get ch_name (py "Unnamed Challenge") r) ++ py ".md").
  assert (Hname : ~ In 47 (slugify (get ch_name (py "Unnamed Challenge") r)
                             ++ py ".md")).
  { rewrite in_app_iff. intros [Hin|Hin].
    - by apply slugify_no_slash in Hin.
    - vm_compute in Hin. intuition discriminate. }
  split; [done|]. split.
  { unfold slugify. rewrite <- app_assoc. apply startswith_app. }
  unfold metadata_path. apply challenges_folder_join.
  by apply startswith_no_slash.
Qed.

Lemma asset_path_in_folder (output_dir name file_url : pystr) :
  in_challenges_folder output_dir
    (path_join3 output_dir CHALLENGES_FOLDER
       (slugify name ++ py "_" ++ last_segment (url_path file_url))).
Proof.
  exists (slugify name ++ py "_" ++ last_segment (url_path file_url)).
  assert (Hname : ~ In 47 (slugify name ++ py "_"
                             ++ last_segment (url_path file_url))).
  { rewrite !in_app_iff. intros [Hin|[Hin|Hin]].
    - by apply slugify_no_slash in Hin.
    - vm_compute in Hin. intuition discriminate.
    - by apply last_segment_no_slash in Hin. }
  split; [done|]. split.
  { unfold slugify. rewrite <- app_assoc. apply startswith_app. }
  unfold path_join3. apply challenges_folder_join.
  by apply startswith_no_slash.
Qed.

Lemma download_files_confined (output_dir api_url name : pystr)
    (files : list pystr) (n : nat) :
  Forall (in_challenges_folder output_dir)
    (map fst (writes (effs (download_files output_dir api_url name files n)))).
Proof.
  unfold download_files.
  apply (for_each_invariant
           (fun es => Forall _ (map fst (writes es)))).
  - constructor.
  - intros a b Ha Hb. rewrite writes_app, map_app. by apply Forall_app_2.
  - intros [] x k _. rewrite effs_bind. cbn [add_task effs res next fst snd].
    rewrite download_run. cbn [effs fst app].
    change (writes (?e :: ?es)) with (writes [e] ++ writes es).
    rewrite writes_app, write_chunks_no_writes.
    cbn [writes flat_map app map fst].
    constructor; [|constructor]. apply asset_path_in_folder.
Qed.

Lemma process_challenge_confined (output_dir : pystr)
    (headers : list (pystr * pystr)) (api_url : pystr) (links : list pystr)
    (c : challenge) (n : nat) :
  Forall (in_challenges_folder output_dir)
    (map fst
       (writes (effs (process_challenge output_dir headers api_url links c n)))).
Proof.
  destruct (ch_id c) as [i|] eqn:Hid.
  2: { rewrite process_challenge_without_id by done. constructor. }
  destruct (as_dict_cases
              (challenge_data_of (details_of (detail_body api_url headers i)) c))
    as [[r Hr]|Hr].
  2: { rewrite (process_challenge_not_dict _ _ _ _ _ _ _ Hid Hr). constructor. }
  destruct (not_object_dec (detail_body api_url headers i)) as [Hobj|Hobj].
  { rewrite (process_challenge_not_object _ _ _ _ _ _ _ Hid Hobj). constructor. }
  rewrite (process_challenge_run _ _ _ _ _ _ _ _ Hid Hobj Hr).
  cbn [effs fst]. rewrite !writes_app, !map_app.
  repeat apply Forall_app_2.
  - constructor.
  - destruct (fetch_fails _); constructor.
  - cbn [writes flat_map app map fst]. constructor; [|constructor].
    apply metadata_path_in_folder.
  - apply download_files_confined.
  - constructor.
Qed.

Lemma challenge_loop_confined (cs : list challenge) (output_dir : pystr)
    (headers : list (pystr * pystr)) (api_url : pystr) (n : nat) :
  Forall (in_challenges_folder output_dir)
    (map fst (writes (effs (challenge_loop cs output_dir headers api_url n)))).
Proof.
  unfold challenge_loop.
  apply (for_each_invariant (fun es => Forall _ (map fst (writes es)))).
  - constructor.
  - intros a b Ha Hb. rewrite writes_app, map_app. by apply Forall_app_2.
  - intros links c k _. apply process_challenge_confined.
Qed.

End Confinement.

(** X10. Whatever the platform serves (names, categories, file URLs,
    malformed bodies), every file a run writes is either the index file
    of the output directory or lies directly inside its challenges folder,
    under a name that begins with the slug marker and has no path
    separator. *)
Theorem writes_stay_in_output_directory `{Library} `{Transport} :
  forall args : arguments,
    Forall (fun path =>
              path = path_join (arg_output args) (py "README.md")
              \/ in_challenges_folder (arg_output args) path)
      (map fst (writes (effects_of (main args)))).
Proof.
  intros args. unfold effects_of.
  destruct (list_body (api_url_of args) (headers_of args)) as [|data|]
    eqn:Hlist.
  { rewrite (main_run_not_json args _ Hlist). constructor. }
  2: { rewrite (main_run_not_object args _ Hlist). constructor. }
  rewrite (main_run_envelope args data _ Hlist). cbv zeta.
  cbn [effs fst].
  rewrite !writes_app, !map_app. repeat apply Forall_app_2.
  1: { constructor. }
  2: { destruct (res _); constructor. }
  destruct (organize_challenges_any (default (JList []) data)
              (arg_output args) (headers_of args) (api_url_of args)
              (arg_update args) (arg_name args) 0%nat) as [[cs ->]|[e ->]].
  2: { constructor. }
  rewrite organize_challenges_run. cbv zeta.
  pose proof (challenge_loop_confined cs (arg_output args) (headers_of args)
                (api_url_of args) 0%nat) as Hloop.
  destruct (res (challenge_loop cs _ _ _ 0%nat)) as [links|e];
    cbn [effs fst].
  - rewrite !writes_app, !map_app. repeat apply Forall_app_2.
    + eapply Forall_impl; [exact Hloop|]. intros p Hp. by right.
    + constructor; [|constructor]. by left.
    + destruct links; constructor.
  - eapply Forall_impl; [exact Hloop|]. intros p Hp. by right.
Qed.

(* ===================================================================== *)
(** ** The files of a run *)





(* ===================================================================== *)
(** ** Any run, and a second one *)

Lemma last_with_path {A} (f : A -> pystr) (p : pystr) (l : list A) :
  Exists (fun x => f x = p) l ->
  exists l1 c l2,
    l = l1 ++ c :: l2 /\ f c = p /\ Forall (fun x => f x <> p) l2.
Proof.
  induction l as [|a l IH]; intros Hex.
  - by apply Exists_nil in Hex.
  - destruct (decide (Exists (fun x => f x = p) l)) as [Hl|Hl].
    + destruct (IH Hl) as (l1 & c & l2 & -> & Hc & Hl2).
      by exists (a :: l1), c, l2.
    + apply Exists_cons in Hex as [Ha|Hex]; [|done].
      exists [], a, l. split; [done|]. split; [done|].
      by apply Forall_Exists_neg.
Qed.

Lemma text_writes_of_writes (es : list effect) :
  text_writes es
  = flat_map (fun w => match snd w with
                       | Text t => [(fst w, t)]
                       | Binary _ => []
                       end)
      (writes es).
Proof.
  induction es as [|e es IH]; [done|].
  change (e :: es) with ([e] ++ es).
  rewrite text_writes_app, writes_app, flat_map_app, IH. f_equal.
  by destruct e as [| |p [t|b]| | | | |].
Qed.

Section AnyFiles.
Context `{Library} `{Transport}.

(** A summary at which the loop stops: it has no id, or its detail body is
    outside the contract.  Nothing is written for it. *)
Lemma failing_turn (output_dir : pystr) (headers : list (pystr * pystr))
    (api_url : pystr) (x : challenge) :
  present (ch_id x) && summary_in_contract api_url headers x = false ->
  exists e,
    forall links n,
      res (process_challenge output_dir headers api_url links x n) = Raise e
      /\ writes (effs (process_challenge output_dir headers api_url links x n))
         = [].
Proof.
  intros Hx. unfold summary_in_contract in Hx.
  destruct (ch_id x) as [i|] eqn:Hid.
  - cbn [present andb] in Hx.
    destruct (not_object_dec (detail_body api_url headers i)) as [Hobj|Hobj].
    + exists TypeError. intros links n.
      by rewrite (process_challenge_not_object _ _ _ _ _ _ _ Hid Hobj).
    + exists AttributeError. intros links n.
      assert (Hr : as_dict (challenge_data_of
                              (details_of (detail_body api_url headers i)) x)
                   = raise AttributeError).
      { by destruct (detail_body api_url headers i) as [|[[|[|a l]|d]|]|]. }
      rewrite (process_challenge_not_dict_run _ _ _ _ _ _ _ Hid Hr).
      cbn [res effs fst snd]. split; [done|].
      rewrite writes_app. by destruct (fetch_fails _).
  - exists (KeyError (py "id")). intros links n.
    by rewrite process_challenge_without_id.
Qed.

(** The files the loop writes, whatever the list: those of the challenges
    it processes. *)
Lemma challenge_loop_writes_any (cs : list challenge) (output_dir : pystr)
    (headers : list (pystr * pystr)) (api_url : pystr) (n : nat) :
  writes (effs (challenge_loop cs output_dir headers api_url n))
  = flat_map (challenge_writes output_dir api_url headers)
      (processed api_url headers cs).
Proof.
  unfold challenge_loop. generalize (@nil pystr). revert n.
  induction cs as [|c cs IH]; intros n links; [done|].
  cbn [for_each processed]. rewrite effs_bind, writes_app.
  destruct (present (ch_id c) && summary_in_contract api_url headers c)
    eqn:Hc.
  - apply andb_prop in Hc as [Hid Hc]. unfold summary_in_contract in Hc.
    destruct (ch_id c) as [i|] eqn:Hi; [|done].
    rewrite (process_challenge_writes _ _ _ _ _ _ _ Hi Hc).
    rewrite (process_challenge_run _ _ _ _ _ _ _ _ Hi
               (in_contract_object _ Hc)
               (as_dict_record_used _ _ _ _ Hi Hc)).
    cbn [res next fst snd flat_map]. f_equal. apply IH.
  - destruct (failing_turn output_dir headers api_url c Hc) as [e He].
    destruct (He links n) as [-> ->]. done.
Qed.

Lemma organize_challenges_writes_any (challenges : json) (output_dir : pystr)
    (headers : list (pystr * pystr)) (api_url : pystr) (update_existing : bool)
    (ctf_name : pystr) (n : nat) :
  exists index,
    writes (effs (organize_challenges challenges output_dir headers api_url
                    update_existing ctf_name n))
    = flat_map (challenge_writes output_dir api_url headers)
        (processed api_url headers
           (challenges_of (Envelope (Some challenges))))
      ++ index
    /\ (index = []
        \/ exists text, index = [(readme_path output_dir, Text text)]).
Proof.
  assert (Hlist : forall cs,
    exists index,
      writes (effs (organize_challenges (JList cs) output_dir headers api_url
                      update_existing ctf_name n))
      = flat_map (challenge_writes output_dir api_url headers)
          (processed api_url headers cs)
        ++ index
      /\ (index = []
          \/ exists text, index = [(readme_path output_dir, Text text)])).
  { intros cs. rewrite organize_challenges_run. cbv zeta.
    pose proof (challenge_loop_writes_any cs output_dir headers api_url 0%nat)
      as Hloop.
    destruct (res (challenge_loop cs output_dir headers api_url 0%nat))
      as [links|e]; cbn [effs fst].
    - exists [(readme_path output_dir, Text (readme_text ctf_name cs))].
      split; [|right; by eexists].
      rewrite !writes_app, Hloop. f_equal.
      by destruct links.
    - exists []. split; [|by left]. by rewrite Hloop, app_nil_r. }
  destruct challenges as [|cs|c].
  - exists []. split; [done|by left].
  - apply Hlist.
  - destruct (dict_nonempty c) eqn:Hc.
    + exists []. split; [|by left].
      unfold organize_challenges, with_progress, iter_challenges.
      rewrite Hc. reflexivity.
    + destruct (Hlist []) as (index & Hw & Hindex).
      exists index. split; [|done]. cbn [challenges_of]. rewrite <- Hw.
      unfold organize_challenges, with_progress, iter_challenges.
      rewrite Hc. reflexivity.
Qed.

(** The files a run writes, whatever the platform serves: those of the
    challenges it processes, and then the index when the loop came to its
    end. *)
Lemma main_writes_any (args : arguments) :
  exists index,
    writes (effects_of (main args))
    = flat_map (challenge_writes (arg_output args) (api_url_of args)
                  (headers_of args))
        (processed (api_url_of args) (headers_of args)
           (challenges_of (list_body (api_url_of args) (headers_of args))))
      ++ index
    /\ (index = []
        \/ exists text, index = [(readme_path (arg_output args), Text text)]).
Proof.
  unfold effects_of.
  destruct (list_body (api_url_of args) (headers_of args)) as [|data|]
    eqn:Hlist.
  - rewrite (main_run_not_json args _ Hlist). exists []. by split; [|left].
  - rewrite (main_run_envelope args data _ Hlist). cbv zeta. cbn [effs fst].
    destruct (organize_challenges_writes_any (default (JList []) data)
                (arg_output args) (headers_of args) (api_url_of args)
                (arg_update args) (arg_name args) 0%nat)
      as (index & Hw & Hindex).
    exists index. split; [|done].
    rewrite !writes_app, Hw. cbn [writes flat_map app].
    assert (Hlast : writes match res (organize_challenges
                                        (default (JList []) data)
                                        (arg_output args) (headers_of args)
                                        (api_url_of args) (arg_update args)
                                        (arg_name args) 0%nat) with
                           | Ok _ => [ConsolePrint completed]
                           | Raise _ => []
                           end = []) by (by destruct (res _)).
    rewrite Hlast, app_nil_r.
    by destruct data as [[| |]|].
  - rewrite (main_run_not_object args _ Hlist). exists []. by split; [|left].
Qed.

(** The metadata file of the last challenge of a path holds its stub. *)
Lemma metadata_file_of_last (output_dir api_url : pystr)
    (headers : list (pystr * pystr)) (l1 l2 : list challenge) (c : challenge)
    (index : list (pystr * contents)) (es : list effect)
    (fs : gmap pystr contents) :
  let used := record_used api_url headers in
  writes es
  = flat_map (challenge_writes output_dir api_url headers) (l1 ++ c :: l2)
      ++ index ->
  (index = [] \/ exists text, index = [(readme_path output_dir, Text text)]) ->
  Forall (fun x => metadata_path output_dir (used x)
                   <> metadata_path output_dir (used c)) l2 ->
  replay es fs !! metadata_path output_dir (used c)
  = Some (Text (metadata_text (used c))).
Proof.
  intros used Hw Hindex Hlater.
  eapply replay_last_write
    with (before := flat_map (challenge_writes output_dir api_url headers) l1).
  { rewrite Hw, flat_map_app.
    cbn [flat_map]. unfold challenge_writes at 2.
    rewrite <- !app_assoc. cbn [app]. reflexivity. }
  rewrite !map_app, !in_app_iff. intros [Hasset|[Hafter|Hreadme]].
  - rewrite map_map in Hasset. apply in_map_iff in Hasset as (f & Heq & _).
    by apply asset_not_metadata in Heq.
  - rewrite flat_map_concat_map, concat_map, map_map in Hafter.
    apply in_concat in Hafter as (paths & Hpaths & Hpath).
    apply in_map_iff in Hpaths as (c' & <- & Hc').
    apply challenge_writes_paths in Hpath as [Heq|[f Heq]].
    + rewrite List.Forall_forall in Hlater. by apply (Hlater c' Hc').
    + symmetry in Heq. by apply asset_not_metadata in Heq.
  - destruct Hindex as [->|[text ->]]; [done|].
    cbn [map fst] in Hreadme. destruct Hreadme as [Heq|[]].
    unfold metadata_path, slugify in Heq. rewrite <- app_assoc in Heq.
    symmetry in Heq. by apply folder_file_not_readme in Heq.
Qed.

End AnyFiles.

(** C6. Whatever the platform serves, running the pipeline again with
    update mode disabled, on the files the first run left and against the
    same platform, leaves every file as the first run left it.  Each of
    the two runs writes in text mode, for every challenge it processes and
    in list order, the metadata file with the stub of the record the
    challenge is processed on (heading with the name, quoted description,
    nothing else), and then at most the index.  So after the first run the
    metadata file of each processed challenge holds the stub of the last
    processed challenge with that path, and after the second run it holds
    that same stub. *)
Theorem second_run_rewrites_same_files `{Library} `{Transport} :
  forall (args : arguments) (fs : gmap pystr contents),
    let first := set_update false args in
    let headers := headers_of first in
    let api_url := api_url_of first in
    let used := record_used api_url headers in
    let handled :=
      processed api_url headers (challenges_of (list_body api_url headers)) in
    let path_of c := metadata_path (arg_output first) (used c) in
    let run := effects_of (main first) in
    let after_first := replay run fs in
    let after_second := replay run after_first in
    after_second = after_first
    /\ (exists index,
          text_writes run
          = map (fun c => (path_of c, metadata_text (used c))) handled ++ index
          /\ (index = []
              \/ exists text,
                   index = [(readme_path (arg_output first), text)]))
    /\ (forall c,
          In c handled ->
          exists c',
            In c' handled
            /\ path_of c' = path_of c
            /\ after_first !! path_of c = Some (Text (metadata_text (used c')))
            /\ after_second !! path_of c
               = Some (Text (metadata_text (used c')))).
Proof.
  intros args fs first headers api_url used handled path_of run after_first
    after_second.
  assert (Hsame : after_second = after_first) by apply replay_twice.
  destruct (main_writes_any first) as (index & Hw & Hindex).
  fold headers api_url handled run in Hw.
  split; [done|]. split.
  - exists (flat_map (fun w => match snd w with
                               | Text t => [(fst w, t)]
                               | Binary _ => []
                               end) index).
    split.
    + rewrite text_writes_of_writes, Hw, flat_map_app. f_equal.
      clear Hw. generalize handled. intros l.
      induction l as [|c l IH]; [done|].
      cbn [flat_map map]. rewrite flat_map_app, IH. f_equal.
      unfold challenge_writes. cbn [flat_map snd fst app].
      rewrite flat_map_concat_map, map_map. cbn [snd].
      generalize (get ch_files [] (record_used api_url headers c)).
      intros files. by induction files.
    + destruct Hindex as [->|[text ->]]; [by left|right]. by exists text.
  - intros c Hin.
    destruct (last_with_path path_of (path_of c) handled)
      as (l1 & c' & l2 & Hsplit & Hpath & Hlater).
    { apply List.Exists_exists. by exists c. }
    exists c'. split; [rewrite Hsplit, in_app_iff; right; by left|].
    split; [done|].
    assert (Hfile : forall fs',
              replay run fs' !! path_of c
              = Some (Text (metadata_text (used c')))).
    { intros fs'. rewrite <- Hpath.
      apply (metadata_file_of_last (arg_output first) api_url headers l1 l2 c'
               index).
      - by rewrite <- Hsplit.
      - done.
      - eapply Forall_impl; [exact Hlater|]. intros x Hx.
        cbv beta in Hx. rewrite <- Hpath in Hx. exact Hx. }
    split; apply Hfile.
Qed.


(* ===================================================================== *)
(** ** Progress *)

Lemma advanced_app (task : nat) (a b : list effect) :
  advanced task (a ++ b) = (advanced task a + advanced task b)%Z.
Proof.
  unfold advanced. induction a as [|e a IH]; [done|].
  cbn [app fold_right]. rewrite IH.
  destruct e; try done. destruct (Nat.eqb task0 task); lia.
Qed.

Section Progress.
Context `{Library} `{Transport}.

Lemma write_chunks_advances (task t : nat) (chunks : list (list byte))
    (n : nat) :
  advanced t (effs (write_chunks task chunks n))
  = if Nat.eqb task t then Z.of_nat (length (concat chunks)) else 0%Z.
Proof.
  unfold write_chunks. generalize (@nil byte). revert n.
  induction chunks as [|c chunks IH]; intros n file.
  - cbn [for_each ret effs fst advanced fold_right concat length].
    by destruct (Nat.eqb task t).
  - cbn [for_each]. rewrite effs_bind, advanced_app.
    destruct c as [|b c].
    + cbn [ret res effs next fst snd concat app].
      rewrite IH. cbn [advanced fold_right]. lia.
    + rewrite res_bind. cbn [update emit res next snd fst].
      rewrite effs_bind. cbn [update emit ret res effs next fst snd app].
      rewrite IH. cbn [advanced fold_right concat].
      rewrite (length_app (b :: c)).
      destruct (Nat.eqb task t); lia.
Qed.

Lemma download_advances (url destination : pystr) (task t n : nat) :
  advanced t (effs (download_challenge_assets url destination task n))
  = if Nat.eqb task t
    then Z.of_nat (length (resp_content (http_get url [])))
    else 0%Z.
Proof.
  rewrite download_run. cbn [effs fst].
  rewrite advanced_app, write_chunks_advances. unfold resp_content.
  cbn [advanced fold_right]. lia.
Qed.



End Progress.

(** X14. A download advances its own progress task by exactly the number
    of bytes of the body, whatever the sizes of the chunks, and advances
    no other task. *)
Theorem download_progress_counts_bytes `{Library} `{Transport} :
  forall (url destination : pystr) (task t n : nat),
    advanced t (effs (download_challenge_assets url destination task n))
    = if Nat.eqb task t
      then Z.of_nat (length (resp_content (http_get url [])))
      else 0%Z.
Proof. intros. apply download_advances. Qed.


(* ===================================================================== *)
(** ** Further runs of the examples *)

Section MoreExamples.
#[local] Existing Instance example_library.

Lemma slug_of_punctuation_witness : slugify (py "!!! ???") = py "🔲 ".
Proof.
  apply slug_of_name_without_alphanumerics; vm_compute; reflexivity.
Defined.

Lemma slug_ignores_case_witness :
  slugify (py "crack me") = slugify (py "Crack Me").
Proof.
  destruct (slug_ignores_ascii_case (py "Crack Me") (py "out") crackme
              (summary 2 (map ascii_lower (py "Crack Me")) None))
    as [Hslug _].
  - vm_compute. reflexivity.
  - reflexivity.
  - reflexivity.
  - vm_compute in Hslug. vm_compute. exact Hslug.
Defined.

Lemma malformed_list_witness :
  exit_status (outcome_of (@main _ platform_not_json example_args)) = 1%Z
  /\ writes (effects_of (@main _ platform_not_json example_args)) = [].
Proof.
  destruct (@malformed_list_stops_after_making_directories _ platform_not_json
              example_args) as (_ & Hstatus & _ & _ & Hwrites & _).
  - vm_compute. reflexivity.
  - by split.
Defined.

Lemma null_list_witness :
  outcome_of (@main _ platform_null_data example_args) = Raise TypeError.
Proof.
  destruct (@null_list_is_an_uncaught_type_error _ platform_null_data
              example_args) as (Hres & _).
  - vm_compute. reflexivity.
  - exact Hres.
Defined.





Lemma second_run_witness :
  let first := set_update false example_args in
  let run := effects_of (@main _ example_platform first) in
  @processed example_platform (api_url_of first) (headers_of first)
    (challenges_of
       (@list_body example_platform (api_url_of first) (headers_of first)))
  = [sqli; crackme; babyre]
  /\ replay run (replay run ∅) !! py "out/📂 Challenges/🔲 crack-me.md"
     = Some (Text (metadata_text crackme))
  /\ replay run (replay run ∅)
       !! py "out/📂 Challenges/🔲 sql-injection-101.md"
     = Some (Text (metadata_text sqli_detail)).
Proof.
  destruct (@second_run_rewrites_same_files _ example_platform example_args ∅)
    as (Hsame & _ & _).
  cbv zeta in *. rewrite Hsame.
  split; [vm_compute; reflexivity|]. split; vm_compute; reflexivity.
Defined.



End MoreExamples.
